(** * OpenBR, plugins/independent.cpp

    A shallow embedding of the four components of [independent.cpp]:

    - [Downsample], the stratified sampler (a static function);
    - [DownsampleTrainingTransform], which samples before it trains;
    - [IndependentTransform], one clone of a transform per matrix of a
      template;
    - [SingletonTransform], a transform shared through static hash tables.

    The first part of the file holds the definitions, module by module in
    the order of the source; the second part holds the properties. *)

From stdpp Require Import gmap strings list sorting.
From Stdlib Require Import ZArith Lia QArith.
Open Scope Z_scope.

(** ** Templates

    A [Template] is a [QList<cv::Mat>] that carries a [File] (the metadata)
    in its member [file].  Matrices and files are opaque to this source
    file, which reads a file only through [File::get]. *)

Record Template (File Mat : Type) : Type := mkTemplate {
  file : File;
  mats : list Mat
}.
Arguments mkTemplate {File Mat} _ _.
Arguments file {File Mat} _.
Arguments mats {File Mat} _.

Abbreviation TemplateList File Mat := (list (Template File Mat)).

(** ** Outcomes

    A call either returns or ends the program: a null pointer is
    dereferenced, an integer is divided by zero, a [QList] is indexed out
    of its range, or [File::get] finds no value under a key and calls
    [qFatal]. *)

Inductive Fault : Type :=
| NullDereference
| DivisionByZero
| IndexOutOfRange
| MissingKey.

Inductive Run (A : Type) : Type :=
| Ok (a : A)
| Abort (f : Fault).
Arguments Ok {A} _.
Arguments Abort {A} _.

#[global] Instance Fault_eq_dec : EqDecision Fault.
Proof. solve_decision. Defined.

#[global] Instance Run_eq_dec {A : Type} `{EqDecision A} : EqDecision (Run A).
Proof. solve_decision. Defined.

#[global] Instance Run_ret : MRet Run := λ A a, Ok a.
#[global] Instance Run_bind : MBind Run := λ A B k m,
  match m with
  | Ok a => k a
  | Abort f => Abort f
  end.

(** ** C++ [int] *)

Module Int.

Definition INT_MAX : Z := 2147483647.
Definition INT_MIN : Z := -2147483648.

(** Two's complement reduction of a mathematical integer to 32 bits. *)
Definition wrap (x : Z) : Z := (x + 2 ^ 31) `mod` 2 ^ 32 - 2 ^ 31.

Definition add (x y : Z) : Z := wrap (x + y).
Definition sub (x y : Z) : Z := wrap (x - y).

(** [abs(x)] of <cstdlib>; the one value without a positive counterpart,
    [INT_MIN], comes back unchanged on two's complement machines. *)
Definition abs (x : Z) : Z := wrap (Z.abs x).

(** [a % b] ends the program when [b] is zero; the remainder truncates
    toward zero. *)
Definition rem (a b : Z) : Run Z :=
  if decide (b = 0) then Abort DivisionByZero else Ok (Z.rem a b).

End Int.

(** ** Qt containers

    A [QList] is a list.  Its [size()] is an [int]: a [QList] holds at
    most [INT_MAX] elements, so the size is the length and a counter that
    counts elements of a [QList] does not overflow. *)

Definition QList_size {A : Type} (l : list A) : Z := Z.of_nat (length l).

(** [l.mid(0, len)]: a negative [len], or one that reaches past the end,
    means up to the end. *)
Definition QList_mid0 {A : Type} (l : list A) (len : Z) : list A :=
  if decide (len < 0 ∨ QList_size l < len) then l
  else take (Z.to_nat len) l.

(** [QMap<QString,int>::keys()]: the keys in ascending order. *)
Definition QMap_keys (m : gmap string Z) : list string :=
  merge_sort String.le (elements (dom m)).

(** ** What the source takes from its surroundings

    [File] is declared in openbr_plugin.h.  The source reads a file with
    [get<QString>(key)], which is fatal when the key has no value, and
    with [get<bool>(key, defaultValue)]; [File_default] is [File()]. *)

Class FileOps (File : Type) : Type := {
  File_default : File;
  File_get_QString : File → string → Run string;
  File_get_bool : File → string → bool → bool
}.

(** The three uses of the [float] parameter [fraction]: the comparisons
    [fraction >= 1] and [fraction < 1] (both false for a NaN), and the
    [int] to which the product [size * fraction] is converted. *)
Class FloatOps (F : Type) : Type := {
  float_ge_1 : F → bool;
  float_lt_1 : F → bool;
  int_times_float : Z → F → Z
}.

(** [std::random_shuffle]: the outcome depends on the state of the
    generator behind [rand()], which it advances. *)
Class RandomOps (Rng : Type) : Type := {
  random_shuffle : ∀ {A : Type}, list A → Rng → list A * Rng
}.

(** The virtual functions of [br::Transform] that the source calls, for
    objects of type [T]: the member [trainable], [clone()], [train(data)],
    [project(src, dst)] (which writes into [dst], a reference that
    already holds a template), [store(stream)] (which appends bytes) and
    [load(stream)] (which reads bytes from the front). *)
Class TransformOps (File Mat T : Type) : Type := {
  Transform_trainable : T → bool;
  Transform_clone : T → T;
  Transform_train : T → TemplateList File Mat → T;
  Transform_project : T → Template File Mat → Template File Mat → Template File Mat;
  Transform_store : T → list Z;
  Transform_load : T → list Z → T * list Z
}.

(** ** Downsample *)

Module Sampler.
Section Downsample.
Context {File Mat F Rng : Type}.
Context `{!FileOps File, !FloatOps F, !RandomOps Rng}.

(** [File::get<QString>(templates, key)]: the value of every template, in
    the order of the list. *)
Fixpoint File_get_all (templates : TemplateList File Mat) (key : string)
    : Run (list string) :=
  match templates with
  | [] => Ok []
  | t :: ts =>
      l ← File_get_QString (file t) key;
      ls ← File_get_all ts key;
      Ok (l :: ls)
  end.

(** [t.file.get<bool>("FTE", false)]: the template is flagged as a failure
    to enroll. *)
Definition FTE (t : Template File Mat) : bool :=
  File_get_bool (file t) "FTE" false.

(** Modelled from the spec: [TemplateList::countValues<QString>] is
    declared in openbr_plugin.h, which is not among the sources.  It
    counts the templates per value of the key; when its second argument is
    true it leaves out the templates that are flagged excluded, so that
    the counts are those of the eligible templates. *)
Fixpoint countValues_from (labelCounts : gmap string Z)
    (templates : TemplateList File Mat) (propName : string)
    (excludeFailures : bool) : Run (gmap string Z) :=
  match templates with
  | [] => Ok labelCounts
  | t :: ts =>
      if excludeFailures && FTE t
      then countValues_from labelCounts ts propName excludeFailures
      else
        l ← File_get_QString (file t) propName;
        countValues_from (<[l := default 0 (labelCounts !! l) + 1]> labelCounts)
                         ts propName excludeFailures
  end.

Definition countValues (templates : TemplateList File Mat) (propName : string)
    (excludeFailures : bool) : Run (gmap string Z) :=
  countValues_from ∅ templates propName excludeFailures.

(** [templates.value(j)]: a default-constructed template out of range. *)
Definition QList_value (templates : TemplateList File Mat) (j : nat)
    : Template File Mat :=
  default (mkTemplate File_default []) (templates !! j).

(** Lines 29 to 32: when both bounds are set, the labels whose count is
    below [instances] are removed from the map. *)
Definition prune (counts : gmap string Z) (classes instances : Z)
    : gmap string Z :=
  if decide (instances ≠ Int.INT_MAX ∧ classes ≠ Int.INT_MAX)
  then filter (λ kv, ¬ kv.2 < instances) counts
  else counts.

(** Lines 38 to 42. *)
Definition select_labels (uniqueLabels : list string) (classes : Z) (g : Rng)
    : list string * Rng :=
  if decide (classes < QList_size uniqueLabels) then
    let '(shuffled, g') := random_shuffle uniqueLabels g in
    (QList_mid0 shuffled classes, g')
  else (uniqueLabels, g).

(** Lines 23 to 42: the label of every template and the selected labels.
    The list [uniqueLabels] of lines 24 and 25 is overwritten on line 34
    before it is read, and the warning of line 36 does not change the
    result. *)
Definition choose_labels (templates : TemplateList File Mat)
    (classes instances : Z) (inputVariable : string) (g : Rng)
    : Run (list string * list string * Rng) :=
  allLabels ← File_get_all templates inputVariable;
  counts ← countValues templates inputVariable
             (bool_decide (instances ≠ Int.INT_MAX));
  let uniqueLabels := QMap_keys (prune counts classes instances) in
  let '(selectedLabels, g') := select_labels uniqueLabels classes g in
  Ok (allLabels, selectedLabels, g').

(** Lines 47 to 50: the positions of the templates of one label that are
    not flagged. *)
Definition indices_of (templates : TemplateList File Mat)
    (allLabels : list string) (selectedLabel : string) : list nat :=
  filter (λ j, allLabels !! j = Some selectedLabel
               ∧ FTE (QList_value templates j) = false)
         (seq 0 (length allLabels)).

(** Lines 52 to 55: what one label adds to [downsample]. *)
Definition take_label (templates : TemplateList File Mat)
    (allLabels : list string) (atLeast : bool) (instances : Z)
    (selectedLabel : string) (g : Rng) : TemplateList File Mat * Rng :=
  let '(indices, g') :=
    random_shuffle (indices_of templates allLabels selectedLabel) g in
  let max := if atLeast then QList_size indices
             else Z.min (QList_size indices) instances in
  (QList_value templates <$> take (Z.to_nat max) indices, g').

(** Lines 45 to 56. *)
Fixpoint take_labels (templates : TemplateList File Mat)
    (allLabels : list string) (atLeast : bool) (instances : Z)
    (selectedLabels : list string) (downsample : TemplateList File Mat)
    (g : Rng) : TemplateList File Mat * Rng :=
  match selectedLabels with
  | [] => (downsample, g)
  | l :: ls =>
      let '(block, g') := take_label templates allLabels atLeast instances l g in
      take_labels templates allLabels atLeast instances ls (downsample ++ block) g'
  end.

(** Lines 58 to 61. *)
Definition apply_fraction (downsample : TemplateList File Mat) (fraction : F)
    (g : Rng) : TemplateList File Mat * Rng :=
  if float_lt_1 fraction then
    let '(shuffled, g') := random_shuffle downsample g in
    (QList_mid0 shuffled (int_times_float (QList_size shuffled) fraction), g')
  else (downsample, g).

Definition Downsample (templates : TemplateList File Mat)
    (classes instances : Z) (fraction : F) (inputVariable : string) (g : Rng)
    : Run (TemplateList File Mat * Rng) :=
  if bool_decide (classes = Int.INT_MAX)
     && bool_decide (instances = Int.INT_MAX)
     && float_ge_1 fraction
  then Ok (templates, g)
  else
    let atLeast := bool_decide (instances < 0) in
    let instances := Int.abs instances in
    '(allLabels, selectedLabels, g1) ←
      choose_labels templates classes instances inputVariable g;
    let '(downsample, g2) :=
      take_labels templates allLabels atLeast instances selectedLabels [] g1 in
    Ok (apply_fraction downsample fraction g2).

(** A template that carries the label [label]. *)
Definition labelled (inputVariable label : string) (t : Template File Mat)
    : Prop :=
  File_get_QString (file t) inputVariable = Ok label.

#[global] Instance labelled_dec (inputVariable label : string)
    (t : Template File Mat) : Decision (labelled inputVariable label t).
Proof. unfold labelled. apply _. Defined.

Definition count_label (inputVariable label : string)
    (l : TemplateList File Mat) : nat :=
  length (filter (labelled inputVariable label) l).

(** The eligible templates of a label: those that are not flagged. *)
Definition eligible (inputVariable label : string) (t : Template File Mat)
    : Prop :=
  labelled inputVariable label t ∧ FTE t = false.

#[global] Instance eligible_dec (inputVariable label : string)
    (t : Template File Mat) : Decision (eligible inputVariable label t).
Proof. unfold eligible. apply _. Defined.

Definition count_eligible (inputVariable label : string)
    (l : TemplateList File Mat) : nat :=
  length (filter (eligible inputVariable label) l).

(** What lines 47 to 55 add to [downsample] for one label: some of the
    eligible templates of the label, all of them in the at-least mode, and
    no more than [instances] of them otherwise. *)
Definition block_of (templates : TemplateList File Mat) (inputVariable : string)
    (atLeast : bool) (instances : Z) (label : string)
    (block : TemplateList File Mat) : Prop :=
  block ⊆+ filter (eligible inputVariable label) templates ∧
  (atLeast = true → block ≡ₚ filter (eligible inputVariable label) templates) ∧
  (atLeast = false → 0 <= instances → Z.of_nat (length block) <= instances).

End Downsample.
End Sampler.

(** ** DownsampleTrainingTransform *)

Module DownsampleTraining.
Section Wrapper.
Context {File Mat F Rng T : Type}.
Context `{!FileOps File, !FloatOps F, !RandomOps Rng, !TransformOps File Mat T}.

(** The properties of the class; [transform] is a pointer that may be
    null (its default). *)
Record DownsampleTrainingTransform : Type := mkDownsampleTraining {
  transform : option T;
  classes : Z;
  instances : Z;
  fraction : F;
  inputVariable : string
}.

Definition project (w : DownsampleTrainingTransform)
    (src dst : Template File Mat) : Run (Template File Mat) :=
  match transform w with
  | None => Abort NullDereference
  | Some t => Ok (Transform_project t src dst)
  end.

Definition train (w : DownsampleTrainingTransform)
    (data : TemplateList File Mat) (g : Rng)
    : Run (DownsampleTrainingTransform * Rng) :=
  match transform w with
  | None => Ok (w, g)
  | Some t =>
      if negb (Transform_trainable t) then Ok (w, g)
      else
        '(downsampled, g') ←
          Sampler.Downsample data (classes w) (instances w) (fraction w)
                             (inputVariable w) g;
        Ok (mkDownsampleTraining (Some (Transform_train t downsampled))
              (classes w) (instances w) (fraction w) (inputVariable w), g')
  end.

End Wrapper.
Arguments DownsampleTrainingTransform : clear implicits.
End DownsampleTraining.

(** ** QDataStream

    The stream is the list of the bytes that are still to be read, each a
    number from 0 to 255; writing appends.  An [int] takes four bytes, the
    most significant first. *)

Module QDataStream.

Definition write_int (n : Z) : list Z :=
  let u := n `mod` 2 ^ 32 in
  [u / 2 ^ 24; (u / 2 ^ 16) `mod` 256; (u / 2 ^ 8) `mod` 256; u `mod` 256].

(** [stream >> size]: when fewer than four bytes are left the value is 0
    and nothing is left to read. *)
Definition read_int (stream : list Z) : Z * list Z :=
  match stream with
  | b3 :: b2 :: b1 :: b0 :: rest =>
      (Int.wrap (((b3 * 256 + b2) * 256 + b1) * 256 + b0), rest)
  | _ => (0, [])
  end.

End QDataStream.

(** ** IndependentTransform *)

Module Independent.
Section Ensemble.
Context {File Mat T : Type}.
Context `{!TransformOps File Mat T}.

(** The members of the class.  [transforms] lists the objects that the
    [QList<Transform*>] points to.  [init] puts the pointer [transform]
    itself at position 0 of the list and nothing removes or moves it, so
    that the object behind [transform] is the head of [transforms], and
    [transform] is null exactly when the list is empty. *)
Record IndependentTransform : Type := mkIndependent {
  transforms : list T;
  trainable : bool
}.

Definition transform (e : IndependentTransform) : option T :=
  head (transforms e).

(** [init()], for the value [transform] of the property and the value
    [trainable0] that the member [trainable] has before the call. *)
Definition init (transform : option T) (trainable0 : bool)
    : IndependentTransform :=
  match transform with
  | None => mkIndependent [] trainable0
  | Some t => mkIndependent [t] (Transform_trainable t)
  end.

(** Lines 144 to 149, for one template of [data]. *)
Definition add_template (t : Template File Mat)
    (templatesList : list (TemplateList File Mat))
    : list (TemplateList File Mat) :=
  let padded :=
    templatesList ++ replicate (length (mats t) - length templatesList) [] in
  imap (λ i column,
          match mats t !! i with
          | Some m => column ++ [mkTemplate (file t) [m]]
          | None => column
          end) padded.

(** Lines 142 to 150. *)
Definition regroup (data : TemplateList File Mat)
    : list (TemplateList File Mat) :=
  foldl (λ templatesList t, add_template t templatesList) [] data.

(** [while (transforms.size() < size) transforms.append(transform->clone())]:
    the list after the loop. *)
Definition grow (e : IndependentTransform) (size : Z) : Run (list T) :=
  if decide (QList_size (transforms e) < size) then
    match transform e with
    | None => Abort NullDereference
    | Some p =>
        Ok (transforms e
            ++ replicate (Z.to_nat size - length (transforms e))
                         (Transform_clone p))
    end
  else Ok (transforms e).

(** Lines 155 to 158.  Every task trains its own object on its own list,
    so the outcome of the concurrent runs is that of the runs in turn. *)
Fixpoint train_each (ts : list T) (templatesList : list (TemplateList File Mat))
    : list T :=
  match ts, templatesList with
  | t :: ts', column :: rest => Transform_train t column :: train_each ts' rest
  | _, _ => ts
  end.

Definition train (e : IndependentTransform) (data : TemplateList File Mat)
    : Run IndependentTransform :=
  if negb (trainable e) then Ok e
  else
    let templatesList := regroup data in
    ts ← grow e (QList_size templatesList);
    Ok (mkIndependent (train_each ts templatesList) (trainable e)).

(** The loop of [project], from index [i] on: [dst] is the template behind
    the reference and [mats_] the local list. *)
Fixpoint project_loop (ts : list T) (src_file : File) (i : nat)
    (channels : list Mat) (dst : Template File Mat) (mats_ : list Mat)
    : Run (Template File Mat * list Mat) :=
  match channels with
  | [] => Ok (dst, mats_)
  | m :: rest =>
      k ← Int.rem (Z.of_nat i) (QList_size ts);
      match ts !! Z.to_nat k with
      | None => Abort IndexOutOfRange
      | Some t =>
          let dst' := Transform_project t (mkTemplate src_file [m]) dst in
          project_loop ts src_file (S i) rest
                       (mkTemplate (file dst') []) (mats_ ++ mats dst')
      end
  end.

Definition project (e : IndependentTransform) (src dst : Template File Mat)
    : Run (Template File Mat) :=
  '(dst', mats_) ←
    project_loop (transforms e) (file src) 0 (mats src)
                 (mkTemplate (file src) (mats dst)) [];
  Ok (mkTemplate (file dst') (mats dst' ++ mats_)).

Definition store (e : IndependentTransform) (stream : list Z) : list Z :=
  stream ++ QDataStream.write_int (QList_size (transforms e))
         ++ concat (Transform_store <$> transforms e).

(** [for (i=0; i<size; i++) transforms[i]->load(stream)], on a list that
    has at least [n] elements. *)
Fixpoint load_each (n : nat) (ts : list T) (stream : list Z)
    : list T * list Z :=
  match n, ts with
  | S n', t :: ts' =>
      let '(t', stream') := Transform_load t stream in
      let '(ts'', stream'') := load_each n' ts' stream' in
      (t' :: ts'', stream'')
  | _, _ => (ts, stream)
  end.

Definition load (e : IndependentTransform) (stream : list Z)
    : Run (IndependentTransform * list Z) :=
  let '(size, stream1) := QDataStream.read_int stream in
  ts ← grow e size;
  let '(ts', stream2) := load_each (Z.to_nat size) ts stream1 in
  Ok (mkIndependent ts' (trainable e), stream2).

(** Calls of [train], [load] and [project] on one object, in sequence. *)
Inductive Call : Type :=
| CallTrain (data : TemplateList File Mat)
| CallLoad (stream : list Z)
| CallProject (src dst : Template File Mat).

Definition call (e : IndependentTransform) (c : Call) : Run IndependentTransform :=
  match c with
  | CallTrain data => train e data
  | CallLoad stream => '(e', _) ← load e stream; Ok e'
  | CallProject src dst => _ ← project e src dst; Ok e
  end.

Fixpoint calls (e : IndependentTransform) (cs : list Call)
    : Run IndependentTransform :=
  match cs with
  | [] => Ok e
  | c :: cs' => e' ← call e c; calls e' cs'
  end.

(** The largest number of matrices of a template of [data]. *)
Definition max_channels (data : TemplateList File Mat) : nat :=
  max_list ((λ t, length (mats t)) <$> data).

(** The largest number of matrices of a template handed to [train]. *)
Fixpoint max_trained (cs : list Call) : nat :=
  match cs with
  | [] => 0
  | CallTrain data :: cs' => max_channels data `max` max_trained cs'
  | _ :: cs' => max_trained cs'
  end.

(** The specification's account of [project], for the matrix [m] at index
    [i] of the source: the matrices that the clone at [i mod size] writes,
    given the single-matrix template made of the source file and [m].
    The destination it writes into holds the source file and, past index
    0, no matrix. *)
Definition spec_channel (ts : list T) (src_file : File) (dst_mats : list Mat)
    (i : nat) (m : Mat) : list Mat :=
  match ts !! (i `mod` length ts)%nat with
  | Some t =>
      mats (Transform_project t (mkTemplate src_file [m])
              (mkTemplate src_file (if decide (i = 0%nat) then dst_mats else [])))
  | None => []
  end.

(** Two objects that project alike. *)
Definition same_project (a b : T) : Prop :=
  ∀ src dst, Transform_project a src dst = Transform_project b src dst.

(** [clone()]: a new object whose [transform] is a clone of this one's,
    initialised by [init]; [trainable0] is the value that the member
    [trainable] of the new object has before [init]. *)
Definition clone (e : IndependentTransform) (trainable0 : bool)
    : Run IndependentTransform :=
  match transform e with
  | None => Abort NullDereference
  | Some p => Ok (init (Some (Transform_clone p)) trainable0)
  end.

(** What a list of templates gives to the column [i]: for every template
    that has a matrix at index [i], in the order of the list, the template
    made of its file and of that matrix. *)
Definition column (data : TemplateList File Mat) (i : nat)
    : TemplateList File Mat :=
  omap (λ t, (λ m, mkTemplate (file t) [m]) <$> mats t !! i) data.

End Ensemble.
Arguments IndependentTransform : clear implicits.
Arguments Call : clear implicits.
End Independent.

(** ** SingletonTransform *)

Module Singleton.
Section Registry.
Context {File Mat : Type}.

(** A [Transform*] is an address.  [make] returns the address of a new
    object; the null pointer is 0 and is never returned by [make]. *)
Definition ptr : Type := nat.

(** The static members of the class, together with two records of what
    happened outside of it: [made] lists the descriptions handed to
    [make], the object at address [k+1] being the one built by the
    [k]-th call; [trained] lists the calls [transform->train(data)] in
    the order they were issued. *)
Record Registry : Type := mkRegistry {
  transforms : gmap string ptr;
  trainingReferenceCounts : gmap string Z;
  trainingData : gmap string (TemplateList File Mat);
  made : list string;
  trained : list (ptr * TemplateList File Mat)
}.

Definition empty : Registry := mkRegistry ∅ ∅ ∅ [] [].

(** The non-static members of one [SingletonTransform]. *)
Record SingletonTransform : Type := mkSingleton {
  description : string;
  transform : ptr
}.

(** [QHash::operator[]] yields a default-constructed value for a key
    that is absent: 0 for [int], the null pointer, the empty list. *)
Definition count_at (r : Registry) (d : string) : Z :=
  default 0 (trainingReferenceCounts r !! d).
Definition data_at (r : Registry) (d : string) : TemplateList File Mat :=
  default [] (trainingData r !! d).
Definition transform_at (r : Registry) (d : string) : ptr :=
  default 0%nat (transforms r !! d).

Definition make (d : string) (r : Registry) : ptr * Registry :=
  (S (length (made r)),
   mkRegistry (transforms r) (trainingReferenceCounts r) (trainingData r)
              (made r ++ [d]) (trained r)).

Definition init (d : string) (r : Registry) : SingletonTransform * Registry :=
  let r1 :=
    if decide (is_Some (transforms r !! d)) then r
    else
      let '(p, r') := make d r in
      mkRegistry (<[d := p]> (transforms r'))
                 (<[d := 0]> (trainingReferenceCounts r'))
                 (trainingData r') (made r') (trained r') in
  let t := transform_at r1 d in
  (mkSingleton d t,
   mkRegistry (transforms r1)
              (<[d := Int.add (count_at r1 d) 1]> (trainingReferenceCounts r1))
              (trainingData r1) (made r1) (trained r1)).

Definition train (o : SingletonTransform) (data : TemplateList File Mat)
    (r : Registry) : Registry :=
  let d := description o in
  let pending := data_at r d ++ data in
  let c := Int.sub (count_at r d) 1 in
  let r1 := mkRegistry (transforms r)
                       (<[d := c]> (trainingReferenceCounts r))
                       (<[d := pending]> (trainingData r))
                       (made r) (trained r) in
  if decide (c > 0) then r1
  else mkRegistry (transforms r1) (trainingReferenceCounts r1)
                  (<[d := []]> (trainingData r1))
                  (made r1)
                  (trained r1 ++ [(transform o, pending)]).

(** [n] owners are initialised with the same description, one after the
    other. *)
Fixpoint init_all (d : string) (n : nat) (r : Registry)
    : list SingletonTransform * Registry :=
  match n with
  | O => ([], r)
  | S n' =>
      let '(o, r1) := init d r in
      let '(os, r2) := init_all d n' r1 in
      (o :: os, r2)
  end.

(** The owners train in turn, the [i]-th one with the [i]-th
    contribution. *)
Fixpoint train_all (os : list SingletonTransform)
    (ds : list (TemplateList File Mat)) (r : Registry) : Registry :=
  match os, ds with
  | o :: os', d :: ds' => train_all os' ds' (train o d r)
  | _, _ => r
  end.

(** One round: as many owners as there are contributions are
    initialised with the description [d], then each trains once. *)
Definition round (d : string) (ds : list (TemplateList File Mat))
    (r : Registry) : Registry :=
  train_all (init_all d (length ds) r).1 ds (init_all d (length ds) r).2.

(** The calls on the class over time.  [OpInit d] constructs an object
    with the description [d] and calls its [init]; [OpTrain k data] calls
    [train(data)] on the [k]-th object constructed so far, counted from 0
    (and stands for nothing when there is no such object). *)
Inductive Op : Type :=
| OpInit (d : string)
| OpTrain (k : nat) (data : TemplateList File Mat).

Definition step (st : list SingletonTransform * Registry) (op : Op)
    : list SingletonTransform * Registry :=
  match op with
  | OpInit d => let '(o, r) := init d st.2 in (st.1 ++ [o], r)
  | OpTrain k data =>
      match st.1 !! k with
      | Some o => (st.1, train o data st.2)
      | None => st
      end
  end.

Definition run (ops : list Op) (st : list SingletonTransform * Registry)
    : list SingletonTransform * Registry :=
  foldl step st ops.

(** The calls of [init] for the description [d] less the calls of [train]
    by objects of that description, among [ops], when the objects
    constructed beforehand have the descriptions [owners]. *)
Fixpoint balance (d : string) (owners : list string) (ops : list Op) : Z :=
  match ops with
  | [] => 0
  | OpInit d' :: ops' =>
      (if decide (d' = d) then 1 else 0) + balance d (owners ++ [d']) ops'
  | OpTrain k _ :: ops' =>
      (if decide (owners !! k = Some d) then -1 else 0) + balance d owners ops'
  end.

(** What holds of the objects and of the tables at any time: a
    description is registered with the object that [make] built for it,
    every object holds the transform registered under its description, a
    description that is not registered has no count, and a count is an
    [int]. *)
Definition consistent (st : list SingletonTransform * Registry) : Prop :=
  (∀ d p, transforms st.2 !! d = Some p
          ↔ ∃ k, p = S k ∧ made st.2 !! k = Some d) ∧
  (∀ o, o ∈ st.1 → transforms st.2 !! description o = Some (transform o)) ∧
  (∀ d, transforms st.2 !! d = None → trainingReferenceCounts st.2 !! d = None) ∧
  (∀ d, Int.INT_MIN <= count_at st.2 d <= Int.INT_MAX).

End Registry.
Arguments Registry : clear implicits.
Arguments Op : clear implicits.
End Singleton.

(** ** Concrete data

    Small instances of the surroundings and small inputs, on which the
    definitions above are evaluated. *)

Module Examples.

(** A file is a list of key/value pairs, a matrix is a number. *)
Definition KV : Type := list (string * string).

Fixpoint KV_lookup (kv : KV) (key : string) : option string :=
  match kv with
  | [] => None
  | (k, v) :: kv' => if decide (k = key) then Some v else KV_lookup kv' key
  end.

#[global] Instance KV_FileOps : FileOps KV := {|
  File_default := [];
  File_get_QString f key :=
    match KV_lookup f key with
    | Some v => Ok v
    | None => Abort MissingKey
    end;
  File_get_bool f key d :=
    match KV_lookup f key with
    | Some v => bool_decide (v = "true")
    | None => d
    end
|}.

(** A fraction is a rational number; the product is truncated. *)
#[global] Instance Q_FloatOps : FloatOps Q := {|
  float_ge_1 q := Qle_bool 1 q;
  float_lt_1 q := negb (Qle_bool 1 q);
  int_times_float n q := Z.quot (n * Qnum q) (Zpos (Qden q))
|}.

(** A generator whose state is a counter: the shuffle rotates the list
    by the counter. *)
#[global] Instance rotate_RandomOps : RandomOps nat := {|
  random_shuffle A l g := (rotate g l, S g)
|}.

(** A transform that keeps or negates the matrix it is given and leaves
    the file of the destination as it is; training on a list that is not
    empty makes it negate. *)
Inductive Sign : Type := Keep | Negate.

#[global] Instance Sign_TransformOps : TransformOps KV Z Sign := {|
  Transform_trainable _ := true;
  Transform_clone t := t;
  Transform_train t data := match data with [] => t | _ => Negate end;
  Transform_project t src dst :=
    mkTemplate (file dst)
               ((λ m, match t with Keep => m | Negate => - m end) <$> mats src);
  Transform_store t := [match t with Keep => 0 | Negate => 1 end];
  Transform_load t stream :=
    match stream with
    | [] => (t, [])
    | b :: rest => (if decide (b = 0) then Keep else Negate, rest)
    end
|}.

(** A transform that cannot be trained and that copies the source. *)
Inductive Fixed : Type := fixed.

#[global] Instance Fixed_TransformOps : TransformOps KV Z Fixed := {|
  Transform_trainable _ := false;
  Transform_clone t := t;
  Transform_train t _ := t;
  Transform_project _ src _ := src;
  Transform_store _ := [];
  Transform_load t stream := (t, stream)
|}.

(** A transform that assigns to the destination a template made of the
    matrices of the source alone, whose file is default-constructed. *)
Inductive Blank : Type := blank.

#[global] Instance Blank_TransformOps : TransformOps KV Z Blank := {|
  Transform_trainable _ := false;
  Transform_clone t := t;
  Transform_train t _ := t;
  Transform_project _ src _ := mkTemplate File_default (mats src);
  Transform_store _ := [];
  Transform_load t stream := (t, stream)
|}.

Definition tpl (kv : KV) (ms : list Z) : Template KV Z := mkTemplate kv ms.

Definition s1 : Template KV Z := tpl [("Label", "a")] [1].
Definition s2 : Template KV Z := tpl [("Label", "b")] [2].
Definition s3 : Template KV Z := tpl [("Label", "a")] [3].

(** A template of three matrices and one of none. *)
Definition wide : Template KV Z := tpl [("Label", "a")] [10; 20; 30].
Definition bare : Template KV Z := tpl [("Label", "a")] [].

(** One owner of the description X that trains twice. *)
Definition owner_X : @Singleton.SingletonTransform :=
  (Singleton.init "X" (@Singleton.empty KV Z)).1.
Definition after_init : Singleton.Registry KV Z :=
  (Singleton.init "X" Singleton.empty).2.
Definition after_train : Singleton.Registry KV Z :=
  Singleton.train owner_X [s1] after_init.
Definition after_extra_train : Singleton.Registry KV Z :=
  Singleton.train owner_X [s2] after_train.

(** Rosters of [Sign], of [Fixed] and of [Blank]. *)
Definition two_signs : Independent.IndependentTransform Sign :=
  Independent.mkIndependent [Keep; Negate] true.
Definition no_sign : Independent.IndependentTransform Sign :=
  Independent.mkIndependent [] true.
Definition one_blank : Independent.IndependentTransform Blank :=
  Independent.init (Some blank) true.
Definition one_fixed : Independent.IndependentTransform Fixed :=
  Independent.init (Some fixed) true.
Definition three_signs : Independent.IndependentTransform Sign :=
  Independent.mkIndependent [Negate; Negate; Negate] true.

(** A wrapper without a transform. *)
Definition null_wrapper : DownsampleTraining.DownsampleTrainingTransform Q Sign :=
  DownsampleTraining.mkDownsampleTraining None Int.INT_MAX Int.INT_MAX 1%Q "Label".

(** Wrappers around a [Sign]: one with the default parameters, one that
    asks for two templates of each of at most five labels. *)
Definition default_wrapper : DownsampleTraining.DownsampleTrainingTransform Q Sign :=
  DownsampleTraining.mkDownsampleTraining (Some Keep) Int.INT_MAX Int.INT_MAX
                                          1%Q "Label".
Definition picky_wrapper : DownsampleTraining.DownsampleTrainingTransform Q Sign :=
  DownsampleTraining.mkDownsampleTraining (Some Keep) 5 2 1%Q "Label".

End Examples.

(** * Properties *)

Lemma wrap_id (x : Z) : Int.INT_MIN <= x <= Int.INT_MAX -> Int.wrap x = x.
Proof.
  unfold Int.wrap, Int.INT_MIN, Int.INT_MAX. intros H.
  rewrite Z.mod_small by lia. lia.
Qed.

(** ** Downsample *)

Section SamplerFacts.
Context {File Mat F Rng : Type}.
Context `{!FileOps File, !FloatOps F, !RandomOps Rng}.
Import Sampler.
Implicit Types (templates : TemplateList File Mat) (g : Rng).

(** [std::random_shuffle] permutes. *)
Hypothesis shuffle_perm :
  ∀ (A : Type) (l : list A) g, (random_shuffle l g).1 ≡ₚ l.

(** The test of lines 15 to 17, when it succeeds. *)
Lemma Downsample_early templates (classes instances : Z) (fraction : F)
    (inputVariable : string) g :
  bool_decide (classes = Int.INT_MAX) && bool_decide (instances = Int.INT_MAX)
    && float_ge_1 fraction = true →
  Downsample templates classes instances fraction inputVariable g
  = Ok (templates, g).
Proof. intros Hearly. unfold Downsample. by rewrite Hearly. Qed.

(** C4.  With [classes] and [instances] both at [INT_MAX] and a fraction
    that is at least 1, [Downsample] returns the list it was given, the
    same templates in the same order, and does not draw from the
    generator. *)
Theorem Downsample_identity templates (fraction : F) (inputVariable : string) g :
  float_ge_1 fraction = true →
  Downsample templates Int.INT_MAX Int.INT_MAX fraction inputVariable g
  = Ok (templates, g).
Proof.
  intros Hge. apply Downsample_early.
  rewrite !bool_decide_eq_true_2 by reflexivity. by rewrite Hge.
Qed.

(** *** The stages of [Downsample] *)

Lemma File_get_all_inv templates (key : string) (labels : list string) :
  File_get_all templates key = Ok labels →
  Forall2 (λ t l, File_get_QString (file t) key = Ok l) templates labels.
Proof.
  revert labels. induction templates as [|t ts IH]; intros labels; cbn.
  - intros [= <-]. constructor.
  - destruct (File_get_QString (file t) key) as [l|] eqn:El; [|done]. cbn.
    destruct (File_get_all ts key) as [ls|] eqn:Els; [|done]. cbn.
    intros [= <-]. constructor; auto.
Qed.

Lemma count_eligible_cons (key l : string) (t : Template File Mat) ts :
  count_eligible key l (t :: ts)
  = ((if decide (eligible key l t) then 1 else 0) + count_eligible key l ts)%nat.
Proof.
  unfold count_eligible. rewrite filter_cons. by destruct (decide _).
Qed.

(** [countValues] returns when every template has a label; when it
    leaves out the flagged templates, the count of a label is the number
    of its eligible templates, and a label without eligible templates is
    not a key of the map. *)
Lemma countValues_from_spec templates (key : string) (labels : list string) :
  Forall2 (λ t l, File_get_QString (file t) key = Ok l) templates labels →
  ∀ (acc : gmap string Z) (ex : bool),
    ∃ m, countValues_from acc templates key ex = Ok m ∧
         (ex = true → ∀ l,
            m !! l = match count_eligible key l templates with
                     | O => acc !! l
                     | S _ as n => Some (default 0 (acc !! l) + Z.of_nat n)
                     end).
Proof.
  induction 1 as [|t lt ts ls Ht _ IH]; intros acc ex.
  - exists acc. split; [done|]. by intros _ l.
  - cbn [countValues_from]. destruct (ex && FTE t) eqn:Eskip.
    + destruct (IH acc ex) as (m & Hm & Hcount). exists m. split; [done|].
      intros Hex l. rewrite (Hcount Hex l), count_eligible_cons.
      rewrite decide_False; [done|]. intros [_ Hfte].
      rewrite Hex in Eskip. cbn in Eskip. congruence.
    + rewrite Ht. cbn [mbind Run_bind].
      destruct (IH (<[lt := default 0 (acc !! lt) + 1]> acc) ex)
        as (m & Hm & Hcount).
      exists m. split; [done|].
      intros Hex l. rewrite (Hcount Hex l), count_eligible_cons.
      rewrite Hex in Eskip. cbn in Eskip.
      destruct (decide (lt = l)) as [->|Hne].
      * rewrite decide_True by (by split). rewrite lookup_insert_eq. cbn.
        destruct (count_eligible key l ts); f_equal; lia.
      * rewrite decide_False.
        2:{ intros [Hl _]. unfold labelled in Hl. congruence. }
        by rewrite lookup_insert_ne.
Qed.

Lemma QMap_keys_elem (m : gmap string Z) (l : string) :
  l ∈ QMap_keys m ↔ is_Some (m !! l).
Proof.
  unfold QMap_keys. rewrite merge_sort_Permutation, elem_of_elements.
  apply elem_of_dom.
Qed.

Lemma QMap_keys_NoDup (m : gmap string Z) : NoDup (QMap_keys m).
Proof.
  unfold QMap_keys. rewrite merge_sort_Permutation. apply NoDup_elements.
Qed.

Lemma QList_mid0_sublist {A : Type} (l : list A) (len : Z) :
  QList_mid0 l len `sublist_of` l.
Proof.
  unfold QList_mid0. destruct (decide _); [done | apply sublist_take].
Qed.

(** The selected labels are distinct keys of the map. *)
Lemma select_labels_spec (uniqueLabels : list string) (classes : Z) g :
  NoDup uniqueLabels →
  NoDup (select_labels uniqueLabels classes g).1 ∧
  ∀ l, l ∈ (select_labels uniqueLabels classes g).1 → l ∈ uniqueLabels.
Proof.
  intros Hnd. unfold select_labels. destruct (decide _) as [_|_]; [|done].
  pose proof (shuffle_perm _ uniqueLabels g) as Hperm.
  destruct (random_shuffle uniqueLabels g) as [shuffled g']. cbn in *.
  pose proof (QList_mid0_sublist shuffled classes) as Hsub. split.
  - apply (sublist_NoDup _ shuffled); [by rewrite Hperm | exact Hsub].
  - intros l Hl. rewrite <- Hperm.
    apply (elem_of_submseteq (QList_mid0 shuffled classes)); [done|].
    by apply sublist_submseteq.
Qed.

Lemma filter_ext_in {A : Type} (P Q : A → Prop)
    `{!∀ x, Decision (P x), !∀ x, Decision (Q x)} (l : list A) :
  (∀ x, x ∈ l → P x ↔ Q x) → filter P l = filter Q l.
Proof.
  induction l as [|a l IH]; intros Hext; [done|].
  rewrite !filter_cons.
  rewrite IH by (intros x Hx; apply Hext; by right).
  apply decide_ext, Hext. by left.
Qed.

Lemma filter_none {A : Type} (P : A → Prop) `{!∀ x, Decision (P x)}
    (l : list A) :
  (∀ x, x ∈ l → ¬ P x) → filter P l = [].
Proof.
  induction l as [|a l IH]; intros Hno; [done|].
  rewrite filter_cons_False by (apply Hno; by left).
  apply IH. intros x Hx. apply Hno. by right.
Qed.

(** The positions that lines 47 to 50 collect are, in order, those of the
    eligible templates of the label. *)
Lemma indices_of_values templates (key : string) (labels : list string)
    (l : string) :
  Forall2 (λ t lt, File_get_QString (file t) key = Ok lt) templates labels →
  QList_value templates <$> indices_of templates labels l
  = filter (eligible key l) templates.
Proof.
  revert labels. induction templates as [|t ts IH] using rev_ind;
    intros labels Hall.
  - apply Forall2_nil_inv_l in Hall as ->. done.
  - apply Forall2_app_inv_l in Hall as (ls & lt1 & Hts & Ht & ->).
    apply Forall2_cons_inv_l in Ht as (lt & nil & Hlt & Hnil & ->).
    apply Forall2_nil_inv_l in Hnil as ->.
    pose proof (Forall2_length _ _ _ Hts) as Hlen.
    unfold indices_of. rewrite length_app. cbn [length].
    rewrite Nat.add_1_r, seq_S, !filter_app, fmap_app. cbn [Nat.add].
    f_equal.
    + rewrite <- (IH ls Hts). unfold indices_of.
      rewrite (filter_ext_in _
                 (λ j, ls !! j = Some l ∧ FTE (QList_value ts j) = false)).
      * apply list_fmap_ext. intros i j Hj.
        apply list_elem_of_lookup_2, list_elem_of_filter in Hj as [_ Hj].
        apply elem_of_seq in Hj. unfold QList_value.
        by rewrite lookup_app_l by lia.
      * intros j Hj. apply elem_of_seq in Hj. unfold QList_value.
        by rewrite !lookup_app_l by lia.
    + rewrite !filter_cons, !filter_nil.
      assert (Hiff : (ls ++ [lt]) !! length ls = Some l
                     ∧ FTE (QList_value (ts ++ [t]) (length ls)) = false
                     ↔ eligible key l t).
      { unfold QList_value. rewrite <- Hlen at 2.
        rewrite !list_lookup_middle by done. cbn.
        unfold eligible, labelled. rewrite Hlt.
        split; intros [H1 H2]; (split; [congruence | done]). }
      destruct (decide (eligible key l t)) as [He|He].
      * rewrite decide_True by (by apply Hiff). cbn. unfold QList_value.
        by rewrite <- Hlen, list_lookup_middle.
      * rewrite decide_False by (by rewrite Hiff). done.
Qed.

Lemma take_label_spec templates (key : string) (labels : list string)
    (atLeast : bool) (instances : Z) (l : string) g :
  Forall2 (λ t lt, File_get_QString (file t) key = Ok lt) templates labels →
  block_of templates key atLeast instances l
           (take_label templates labels atLeast instances l g).1.
Proof.
  intros Hall. unfold take_label.
  pose proof (shuffle_perm _ (indices_of templates labels l) g) as Hperm.
  destruct (random_shuffle (indices_of templates labels l) g) as [ix g'].
  cbn [fst] in *. unfold block_of, QList_size.
  rewrite <- (indices_of_values _ key _ l Hall), <- Hperm. repeat split.
  - apply sublist_submseteq, fmap_sublist, sublist_take.
  - intros ->. by rewrite Nat2Z.id, take_ge.
  - intros -> Hpos. rewrite length_fmap, length_take. lia.
Qed.

Lemma take_labels_spec templates (key : string) (labels : list string)
    (atLeast : bool) (instances : Z) :
  Forall2 (λ t lt, File_get_QString (file t) key = Ok lt) templates labels →
  ∀ (selected : list string) acc g,
    ∃ blocks,
      (take_labels templates labels atLeast instances selected acc g).1
      = acc ++ concat blocks ∧
      Forall2 (block_of templates key atLeast instances) selected blocks.
Proof.
  intros Hall selected.
  induction selected as [|l ls IH]; intros acc g; cbn [take_labels].
  - exists []. cbn. by rewrite app_nil_r.
  - pose proof (take_label_spec _ _ _ atLeast instances l g Hall) as Hblock.
    destruct (take_label templates labels atLeast instances l g) as [block g'].
    destruct (IH (acc ++ block) g') as (blocks & -> & Hblocks).
    exists (block :: blocks). cbn. rewrite <- app_assoc. by split; [|constructor].
Qed.

Lemma apply_fraction_spec (downsample : TemplateList File Mat) (fraction : F) g :
  (apply_fraction downsample fraction g).1 ⊆+ downsample ∧
  (float_lt_1 fraction = false →
     (apply_fraction downsample fraction g).1 = downsample).
Proof.
  unfold apply_fraction. destruct (float_lt_1 fraction); [|done].
  pose proof (shuffle_perm _ downsample g) as Hperm.
  destruct (random_shuffle downsample g) as [shuffled g']. cbn in *.
  split; [|done]. rewrite <- Hperm.
  apply sublist_submseteq, QList_mid0_sublist.
Qed.

(** *** Counting the templates of a label *)

Lemma count_label_app (key l : string) (a b : TemplateList File Mat) :
  count_label key l (a ++ b) = (count_label key l a + count_label key l b)%nat.
Proof. unfold count_label. by rewrite filter_app, length_app. Qed.

Lemma count_label_submseteq (key l : string) (a b : TemplateList File Mat) :
  a ⊆+ b → (count_label key l a ≤ count_label key l b)%nat.
Proof.
  intros (k & Hk)%submseteq_Permutation. unfold count_label.
  rewrite Hk, filter_app, length_app. lia.
Qed.

Lemma block_of_elem templates (key : string) (atLeast : bool) (instances : Z)
    (l : string) (block : TemplateList File Mat) (t : Template File Mat) :
  block_of templates key atLeast instances l block →
  t ∈ block → eligible key l t ∧ t ∈ templates.
Proof.
  intros (Hsub & _) Ht.
  by apply (elem_of_submseteq _ _ _ Ht), list_elem_of_filter in Hsub.
Qed.

Lemma block_of_foreign templates (key : string) (atLeast : bool)
    (instances : Z) (l l' : string) (block : TemplateList File Mat) :
  block_of templates key atLeast instances l' block →
  l ≠ l' → count_label key l block = 0%nat.
Proof.
  intros Hblock Hne. unfold count_label. rewrite filter_none; [done|].
  intros t Ht Hl.
  destruct (block_of_elem _ _ _ _ _ _ _ Hblock Ht) as [[Hl' _] _].
  unfold labelled in *. congruence.
Qed.

Lemma blocks_absent templates (key : string) (atLeast : bool) (instances : Z)
    (l : string) (selected : list string)
    (blocks : list (TemplateList File Mat)) :
  Forall2 (block_of templates key atLeast instances) selected blocks →
  l ∉ selected → count_label key l (concat blocks) = 0%nat.
Proof.
  induction 1 as [|l' b ls bs Hb _ IH]; intros Hl; [done|].
  cbn [concat]. rewrite count_label_app.
  rewrite (block_of_foreign _ _ _ _ l l' b Hb) by (intros ->; apply Hl; by left).
  rewrite IH; [done|]. intros Hin. apply Hl. by right.
Qed.

(** Outside of the at-least mode a label has at most [instances]
    templates in the blocks of distinct labels. *)
Lemma blocks_bounded templates (key : string) (instances : Z) (l : string)
    (selected : list string) (blocks : list (TemplateList File Mat)) :
  Forall2 (block_of templates key false instances) selected blocks →
  NoDup selected → 0 <= instances →
  Z.of_nat (count_label key l (concat blocks)) <= instances.
Proof.
  induction 1 as [|l' b ls bs Hb Hbs IH]; intros Hnd Hpos; [cbn; lia|].
  apply NoDup_cons in Hnd as [Hl' Hnd].
  cbn [concat]. rewrite count_label_app.
  destruct (decide (l = l')) as [->|Hne].
  - rewrite (blocks_absent _ _ _ _ _ _ _ Hbs Hl').
    destruct Hb as (_ & _ & Hlen). specialize (Hlen eq_refl Hpos).
    pose proof (length_filter (labelled key l') b). unfold count_label. lia.
  - rewrite (block_of_foreign _ _ _ _ l l' b Hb Hne). by apply IH.
Qed.

(** In the at-least mode the blocks hold every eligible template of a
    selected label, as many times as the input does. *)
Lemma blocks_complete templates (key : string) (instances : Z) (l : string)
    (selected : list string) (blocks : list (TemplateList File Mat)) :
  Forall2 (block_of templates key true instances) selected blocks →
  NoDup selected → l ∈ selected →
  count_label key l (concat blocks) = count_eligible key l templates ∧
  ∀ t, t ∈ templates → eligible key l t → t ∈ concat blocks.
Proof.
  induction 1 as [|l' b ls bs Hb Hbs IH]; intros Hnd Hl;
    [by apply elem_of_nil in Hl|].
  apply NoDup_cons in Hnd as [Hl' Hnd].
  cbn [concat]. rewrite count_label_app.
  destruct (decide (l = l')) as [->|Hne].
  - rewrite (blocks_absent _ _ _ _ _ _ _ Hbs Hl').
    destruct Hb as (_ & Hperm & _). specialize (Hperm eq_refl). split.
    + unfold count_label, count_eligible. rewrite Hperm.
      rewrite list_filter_filter_r by (by intros ? []). lia.
    + intros t Ht He. apply elem_of_app. left. rewrite Hperm.
      by apply list_elem_of_filter.
  - apply elem_of_cons in Hl as [->|Hl]; [done|].
    rewrite (block_of_foreign _ _ _ _ l l' b Hb Hne).
    destruct (IH Hnd Hl) as [Hcount Hmem]. split; [done|].
    intros t Ht He. apply elem_of_app. right. by apply Hmem.
Qed.

(** A template of the blocks is an eligible template of a selected
    label. *)
Lemma blocks_origin templates (key : string) (atLeast : bool) (instances : Z)
    (selected : list string) (blocks : list (TemplateList File Mat))
    (t : Template File Mat) :
  Forall2 (block_of templates key atLeast instances) selected blocks →
  t ∈ concat blocks → ∃ l, l ∈ selected ∧ eligible key l t.
Proof.
  induction 1 as [|l' b ls bs Hb _ IH]; cbn [concat]; intros Ht;
    [by apply elem_of_nil in Ht|].
  apply elem_of_app in Ht as [Ht|Ht].
  - exists l'. split; [by left|].
    by destruct (block_of_elem _ _ _ _ _ _ _ Hb Ht).
  - destruct (IH Ht) as (l & Hl & He). exists l. split; [by right | done].
Qed.

(** *** The whole of [Downsample] *)

Lemma choose_labels_spec templates (classes instances : Z) (key : string) g
    (labels : list string) :
  File_get_all templates key = Ok labels →
  ∃ counts selected g1,
    countValues templates key (bool_decide (instances ≠ Int.INT_MAX)) = Ok counts ∧
    (instances ≠ Int.INT_MAX → ∀ l c,
       counts !! l = Some c → c = Z.of_nat (count_eligible key l templates)) ∧
    choose_labels templates classes instances key g = Ok (labels, selected, g1) ∧
    NoDup selected ∧
    ∀ l, l ∈ selected → is_Some (prune counts classes instances !! l).
Proof.
  intros Hlabels. pose proof (File_get_all_inv _ _ _ Hlabels) as Hall.
  destruct (countValues_from_spec _ _ _ Hall ∅
              (bool_decide (instances ≠ Int.INT_MAX))) as (counts & Hc & Hspec).
  pose proof (select_labels_spec (QMap_keys (prune counts classes instances))
                classes g (QMap_keys_NoDup _)) as [Hnd Hin].
  unfold choose_labels, countValues. rewrite Hlabels, Hc. cbn [mbind Run_bind].
  destruct (select_labels _ classes g) as [selected g1]. cbn [fst] in *.
  exists counts, selected, g1. repeat split; [|done..|].
  - intros Hne l c Hl.
    rewrite (Hspec (bool_decide_eq_true_2 _ Hne) l), lookup_empty in Hl.
    destruct (count_eligible key l templates); [done|].
    cbn [default] in Hl. injection Hl as <-. lia.
  - intros l Hl. by apply QMap_keys_elem, Hin.
Qed.

Lemma Downsample_spec templates (classes instances : Z) (fraction : F)
    (key : string) g (labels : list string) :
  bool_decide (classes = Int.INT_MAX) && bool_decide (instances = Int.INT_MAX)
    && float_ge_1 fraction = false →
  File_get_all templates key = Ok labels →
  ∃ counts selected g1 blocks out g',
    countValues templates key (bool_decide (Int.abs instances ≠ Int.INT_MAX))
    = Ok counts ∧
    (Int.abs instances ≠ Int.INT_MAX → ∀ l c,
       counts !! l = Some c → c = Z.of_nat (count_eligible key l templates)) ∧
    choose_labels templates classes (Int.abs instances) key g
    = Ok (labels, selected, g1) ∧
    NoDup selected ∧
    (∀ l, l ∈ selected →
       is_Some (prune counts classes (Int.abs instances) !! l)) ∧
    Forall2 (block_of templates key (bool_decide (instances < 0))
               (Int.abs instances)) selected blocks ∧
    Downsample templates classes instances fraction key g = Ok (out, g') ∧
    out ⊆+ concat blocks ∧
    (float_lt_1 fraction = false → out = concat blocks).
Proof.
  intros Hlate Hlabels. pose proof (File_get_all_inv _ _ _ Hlabels) as Hall.
  destruct (choose_labels_spec templates classes (Int.abs instances) key g
              labels Hlabels) as (counts & selected & g1 & Hc & Hcount & Hch & Hnd & Hin).
  destruct (take_labels_spec templates key labels (bool_decide (instances < 0))
              (Int.abs instances) Hall selected [] g1) as (blocks & Hres & Hblocks).
  destruct (apply_fraction_spec (concat blocks) fraction
              (take_labels templates labels (bool_decide (instances < 0))
                 (Int.abs instances) selected [] g1).2) as [Hsub Heq].
  unfold Downsample. rewrite Hlate, Hch. cbn [mbind Run_bind].
  destruct (take_labels _ _ _ _ selected [] g1) as [downsample g2].
  cbn [fst snd app] in *. subst downsample.
  destruct (apply_fraction (concat blocks) fraction g2) as [out g'].
  cbn [fst] in *. by exists counts, selected, g1, blocks, out, g'.
Qed.

(** C2, as the code has it.  When every template has a label and both
    [classes] and the absolute value of [instances] differ from [INT_MAX],
    [Downsample] returns a list that holds no template of a label with
    fewer eligible templates than the absolute value of [instances]. *)
Theorem Downsample_discards templates (classes instances : Z) (fraction : F)
    (key : string) g (labels : list string) :
  File_get_all templates key = Ok labels →
  classes ≠ Int.INT_MAX → Int.abs instances ≠ Int.INT_MAX →
  ∃ out g',
    Downsample templates classes instances fraction key g = Ok (out, g') ∧
    ∀ l, Z.of_nat (count_eligible key l templates) < Int.abs instances →
      ∀ t, t ∈ out → ¬ labelled key l t.
Proof.
  intros Hlabels Hclasses Hinst.
  destruct (Downsample_spec templates classes instances fraction key g labels)
    as (counts & selected & g1 & blocks & out & g' & _ & Hcount & _ & _ &
        Hin & Hblocks & Hres & Hsub & _); [|done|].
  { by rewrite (bool_decide_eq_false_2 _ Hclasses). }
  exists out, g'. split; [done|]. intros l Hfew t Ht Hl.
  apply (elem_of_submseteq _ _ _ Ht) in Hsub.
  destruct (blocks_origin _ _ _ _ _ _ _ Hblocks Hsub) as (l' & Hl' & [Hlab _]).
  assert (l' = l) as -> by (unfold labelled in *; congruence).
  destruct (Hin l Hl') as [c Hc]. unfold prune in Hc.
  rewrite decide_True in Hc by done.
  apply map_lookup_filter_Some in Hc as [Hc Hkeep]. cbn in Hkeep.
  rewrite (Hcount Hinst l c Hc) in Hkeep. lia.
Qed.

(** C5, as the code has it.  [instances] is an [int], the list has at
    most [INT_MAX] templates, each with a label.  Then [Downsample]
    returns.  When [instances] is not negative the result holds at most
    [instances] templates of any one label.  When [instances] is negative
    and the fraction is not below 1, the result holds every eligible
    template of every selected label, as many times as the input does. *)
Theorem Downsample_per_label templates (classes instances : Z) (fraction : F)
    (key : string) g (labels : list string) :
  File_get_all templates key = Ok labels →
  Int.INT_MIN <= instances <= Int.INT_MAX →
  QList_size templates <= Int.INT_MAX →
  ∃ out g',
    Downsample templates classes instances fraction key g = Ok (out, g') ∧
    (0 <= instances → ∀ l, Z.of_nat (count_label key l out) <= instances) ∧
    (instances < 0 → float_lt_1 fraction = false →
       ∃ selected g1,
         choose_labels templates classes (Int.abs instances) key g
         = Ok (labels, selected, g1) ∧
         ∀ l, l ∈ selected →
           count_label key l out = count_eligible key l templates ∧
           ∀ t, t ∈ templates → eligible key l t → t ∈ out).
Proof.
  intros Hlabels Hint Hsize.
  destruct (bool_decide (classes = Int.INT_MAX)
            && bool_decide (instances = Int.INT_MAX)
            && float_ge_1 fraction) eqn:Hearly.
  - exists templates, g. rewrite (Downsample_early _ _ _ _ _ _ Hearly).
    apply andb_prop in Hearly as [Hearly _].
    apply andb_prop in Hearly as [_ Hi].
    apply bool_decide_eq_true_1 in Hi. subst instances.
    split; [done|]. split.
    + intros _ l. unfold QList_size in Hsize.
      pose proof (length_filter (labelled key l) templates).
      unfold count_label. lia.
    + unfold Int.INT_MAX. lia.
  - destruct (Downsample_spec templates classes instances fraction key g labels
                Hearly Hlabels)
      as (counts & selected & g1 & blocks & out & g' & _ & _ & Hch & Hnd &
          _ & Hblocks & Hres & Hsub & Heq).
    exists out, g'. split; [done|]. split.
    + intros Hpos l.
      rewrite bool_decide_eq_false_2 in Hblocks by lia.
      assert (Habs : Int.abs instances = instances).
      { unfold Int.abs. rewrite Z.abs_eq by done. apply wrap_id. lia. }
      rewrite Habs in Hblocks.
      pose proof (blocks_bounded _ _ _ l _ _ Hblocks Hnd Hpos).
      pose proof (count_label_submseteq key l _ _ Hsub). lia.
    + intros Hneg Hfrac. exists selected, g1. split; [done|].
      intros l Hl. rewrite bool_decide_eq_true_2 in Hblocks by done.
      rewrite (Heq Hfrac).
      by apply (blocks_complete _ _ _ _ _ _ Hblocks Hnd).
Qed.

(** *** Further properties of [Downsample] *)

Lemma File_get_all_ok templates (key : string) :
  (∃ labels, File_get_all templates key = Ok labels) ↔
  Forall (λ t, ∃ l, labelled key l t) templates.
Proof.
  unfold labelled. induction templates as [|t ts IH]; cbn [File_get_all].
  - split; [constructor | by eexists].
  - split.
    + intros [labels H].
      destruct (File_get_QString (file t) key) as [l|] eqn:El; [|done].
      cbn [mbind Run_bind] in H.
      destruct (File_get_all ts key) as [ls|] eqn:Els; [|done].
      constructor; [by exists l | apply IH; by eexists].
    + intros H. apply Forall_cons in H as [[l Hl] Hts].
      apply IH in Hts as [ls Hls]. rewrite Hl. cbn [mbind Run_bind].
      rewrite Hls. by eexists.
Qed.

(** Past the test of lines 15 to 17 the labels are read first. *)
Lemma Downsample_late_abort templates (classes instances : Z) (fraction : F)
    (key : string) g (f : Fault) :
  bool_decide (classes = Int.INT_MAX) && bool_decide (instances = Int.INT_MAX)
    && float_ge_1 fraction = false →
  File_get_all templates key = Abort f →
  Downsample templates classes instances fraction key g = Abort f.
Proof.
  intros Hlate Hf. unfold Downsample, choose_labels. by rewrite Hlate, Hf.
Qed.

Lemma Downsample_late_labels templates (classes instances : Z) (fraction : F)
    (key : string) g out g' :
  bool_decide (classes = Int.INT_MAX) && bool_decide (instances = Int.INT_MAX)
    && float_ge_1 fraction = false →
  Downsample templates classes instances fraction key g = Ok (out, g') →
  ∃ labels, File_get_all templates key = Ok labels.
Proof.
  intros Hlate Hres. destruct (File_get_all templates key) as [labels|f] eqn:E;
    [by eexists|].
  by rewrite (Downsample_late_abort _ _ _ _ _ _ f Hlate E) in Hres.
Qed.

(** Past the test of lines 15 to 17, [Downsample] returns exactly when
    every template has a value under the key, the flagged ones
    included. *)
Theorem Downsample_returns_iff_labelled templates (classes instances : Z)
    (fraction : F) (key : string) g :
  bool_decide (classes = Int.INT_MAX) && bool_decide (instances = Int.INT_MAX)
    && float_ge_1 fraction = false →
  (∃ out g', Downsample templates classes instances fraction key g
             = Ok (out, g'))
  ↔ Forall (λ t, ∃ l, labelled key l t) templates.
Proof.
  intros Hlate. rewrite <- File_get_all_ok. split.
  - intros (out & g' & Hres). by eapply Downsample_late_labels.
  - intros [labels Hlabels].
    destruct (Downsample_spec templates classes instances fraction key g labels
                Hlate Hlabels)
      as (_ & _ & _ & _ & out & g' & _ & _ & _ & _ & _ & _ & Hres & _).
    by exists out, g'.
Qed.

Lemma blocks_elem templates (key : string) (atLeast : bool) (instances : Z)
    (selected : list string) (blocks : list (TemplateList File Mat))
    (t : Template File Mat) :
  Forall2 (block_of templates key atLeast instances) selected blocks →
  t ∈ concat blocks → ∃ l, l ∈ selected ∧ eligible key l t ∧ t ∈ templates.
Proof.
  induction 1 as [|l' b ls bs Hb _ IH]; cbn [concat]; intros Ht;
    [by apply elem_of_nil in Ht|].
  apply elem_of_app in Ht as [Ht|Ht].
  - exists l'. split; [by left|]. by apply (block_of_elem _ _ _ _ _ _ _ Hb).
  - destruct (IH Ht) as (l & Hl & He). exists l. split; [by right | done].
Qed.

(** Past the test of lines 15 to 17, a template of the result is a
    template of the input that is not flagged and whose label is one of
    the selected labels. *)
Theorem Downsample_only_eligible templates (classes instances : Z)
    (fraction : F) (key : string) g out g' :
  bool_decide (classes = Int.INT_MAX) && bool_decide (instances = Int.INT_MAX)
    && float_ge_1 fraction = false →
  Downsample templates classes instances fraction key g = Ok (out, g') →
  ∃ labels selected g1,
    choose_labels templates classes (Int.abs instances) key g
    = Ok (labels, selected, g1) ∧
    ∀ t, t ∈ out →
      t ∈ templates ∧ FTE t = false ∧ ∃ l, l ∈ selected ∧ labelled key l t.
Proof.
  intros Hlate Hres.
  destruct (Downsample_late_labels _ _ _ _ _ _ _ _ Hlate Hres)
    as [labels Hlabels].
  destruct (Downsample_spec templates classes instances fraction key g labels
              Hlate Hlabels)
    as (_ & selected & g1 & blocks & out0 & g0 & _ & _ & Hch & _ & _ &
        Hblocks & Hres0 & Hsub & _).
  rewrite Hres in Hres0. injection Hres0 as <- <-.
  exists labels, selected, g1. split; [done|]. intros t Ht.
  apply (elem_of_submseteq _ _ _ Ht) in Hsub.
  destruct (blocks_elem _ _ _ _ _ _ _ Hblocks Hsub) as (l & Hl & [Hlab Hfte] & Hin).
  repeat split; [done..|]. by exists l.
Qed.

Lemma filter_disjoint_app {A : Type} (P Q : A → Prop)
    `{!∀ x, Decision (P x), !∀ x, Decision (Q x)} (l : list A) :
  (∀ x, P x → Q x → False) →
  filter P l ++ filter Q l ≡ₚ filter (λ x, P x ∨ Q x) l.
Proof.
  intros Hdis. induction l as [|a l IH]; [done|].
  rewrite !filter_cons.
  destruct (decide (P a)) as [HP|HP]; destruct (decide (Q a)) as [HQ|HQ].
  - destruct (Hdis a HP HQ).
  - rewrite decide_True by (by left). cbn. by rewrite IH.
  - rewrite decide_True by (by right). rewrite <- Permutation_middle.
    by rewrite IH.
  - rewrite decide_False by (by intros [|]). done.
Qed.

(** The blocks of distinct labels together hold no template more often
    than the input does. *)
Lemma blocks_submseteq templates (key : string) (atLeast : bool)
    (instances : Z) (selected : list string)
    (blocks : list (TemplateList File Mat)) :
  Forall2 (block_of templates key atLeast instances) selected blocks →
  NoDup selected →
  concat blocks ⊆+ filter (λ t, Exists (λ l, eligible key l t) selected)
                          templates.
Proof.
  induction 1 as [|l b ls bs Hb _ IH]; intros Hnd; cbn [concat].
  - apply submseteq_nil_l.
  - apply NoDup_cons in Hnd as [Hl Hnd].
    destruct Hb as (Hsub & _). specialize (IH Hnd).
    rewrite (list_filter_iff _
               (λ t, eligible key l t ∨ Exists (λ l', eligible key l' t) ls))
      by (intros t; apply Exists_cons).
    rewrite <- filter_disjoint_app.
    + by apply submseteq_app.
    + intros t [Hlab _] Hex. apply Exists_exists in Hex as (l' & Hl' & [Hlab' _]).
      unfold labelled in *. apply Hl. congruence.
Qed.

Lemma Downsample_result_submseteq templates (classes instances : Z)
    (fraction : F) (key : string) g out g' :
  Downsample templates classes instances fraction key g = Ok (out, g') →
  out ⊆+ templates.
Proof.
  intros Hres.
  destruct (bool_decide (classes = Int.INT_MAX)
            && bool_decide (instances = Int.INT_MAX)
            && float_ge_1 fraction) eqn:Hearly.
  - rewrite (Downsample_early _ _ _ _ _ _ Hearly) in Hres.
    by injection Hres as <- <-.
  - destruct (Downsample_late_labels _ _ _ _ _ _ _ _ Hearly Hres)
      as [labels Hlabels].
    destruct (Downsample_spec templates classes instances fraction key g labels
                Hearly Hlabels)
      as (_ & selected & g1 & blocks & out0 & g0 & _ & _ & _ & Hnd & _ &
          Hblocks & Hres0 & Hsub & _).
    rewrite Hres in Hres0. injection Hres0 as <- <-.
    etrans; [exact Hsub|]. etrans; [by eapply blocks_submseteq|].
    apply sublist_submseteq, sublist_filter.
Qed.

(** Whatever the parameters, the result holds no template more often
    than the input does: [Downsample] selects, it neither repeats nor
    makes up a template. *)
Theorem Downsample_submseteq templates (classes instances : Z)
    (fraction : F) (key : string) g out g' :
  Downsample templates classes instances fraction key g = Ok (out, g') →
  out ⊆+ templates.
Proof. apply Downsample_result_submseteq. Qed.

Lemma QList_mid0_size {A : Type} (l : list A) (len : Z) :
  QList_size (QList_mid0 l len)
  = if decide (0 <= len <= QList_size l) then len else QList_size l.
Proof.
  unfold QList_mid0, QList_size.
  destruct (decide (len < 0 ∨ _)) as [Hout|Hin].
  - by rewrite decide_False by lia.
  - rewrite decide_True by lia. rewrite length_take. lia.
Qed.

Lemma select_labels_length (uniqueLabels : list string) (classes : Z) g :
  QList_size (select_labels uniqueLabels classes g).1
  = if decide (0 <= classes < QList_size uniqueLabels) then classes
    else QList_size uniqueLabels.
Proof.
  unfold select_labels. destruct (decide (classes < _)) as [Hlt|Hge].
  - pose proof (shuffle_perm _ uniqueLabels g) as Hperm.
    destruct (random_shuffle uniqueLabels g) as [shuffled g']. cbn [fst] in *.
    apply Permutation_length in Hperm.
    rewrite QList_mid0_size. unfold QList_size in *.
    repeat destruct (decide _); lia.
  - cbn [fst]. by rewrite decide_False by lia.
Qed.


(** Lines 58 to 61.  For a fraction below 1 the list is cut to the
    [int] that [size * fraction] converts to when that number lies
    between 0 and the size; a negative number, or one above the size,
    leaves the whole list.  What is left is taken from the list. *)
Theorem apply_fraction_size (downsample : TemplateList File Mat) (fraction : F) g :
  float_lt_1 fraction = true →
  let k := int_times_float (QList_size downsample) fraction in
  QList_size (apply_fraction downsample fraction g).1
  = (if decide (0 <= k <= QList_size downsample) then k
     else QList_size downsample) ∧
  (apply_fraction downsample fraction g).1 ⊆+ downsample.
Proof.
  intros Hlt. cbn zeta. split; [|apply apply_fraction_spec].
  unfold apply_fraction. rewrite Hlt.
  pose proof (shuffle_perm _ downsample g) as Hperm.
  destruct (random_shuffle downsample g) as [shuffled g']. cbn [fst] in *.
  apply Permutation_length in Hperm.
  rewrite QList_mid0_size. unfold QList_size. by rewrite Hperm.
Qed.

Lemma choose_labels_inv templates (classes instances : Z) (key : string) g
    (labels selected : list string) g1 :
  choose_labels templates classes instances key g = Ok (labels, selected, g1) →
  ∃ counts, selected
            = (select_labels (QMap_keys (prune counts classes instances))
                 classes g).1.
Proof.
  unfold choose_labels.
  destruct (File_get_all templates key) as [ls|]; [|done]. cbn [mbind Run_bind].
  destruct (countValues templates key _) as [counts|]; [|done].
  cbn [mbind Run_bind].
  destruct (select_labels _ classes g) as [sel g2] eqn:E.
  intros [= <- <- <-]. exists counts. by rewrite E.
Qed.

Lemma blocks_length_bounded templates (key : string) (instances : Z)
    (selected : list string) (blocks : list (TemplateList File Mat)) :
  Forall2 (block_of templates key false instances) selected blocks →
  0 <= instances →
  QList_size (concat blocks) <= QList_size selected * instances.
Proof.
  unfold QList_size.
  induction 1 as [|l b ls bs Hb _ IH]; intros Hpos; cbn [concat length];
    [lia|].
  destruct Hb as (_ & _ & Hlen). specialize (Hlen eq_refl Hpos).
  specialize (IH Hpos). rewrite length_app. lia.
Qed.

(** Outside of the at-least mode, past the test of lines 15 to 17, the
    result has at most [instances] templates per selected label, and
    at most [classes * instances] templates when [classes] is not
    negative. *)
Theorem Downsample_size_bound templates (classes instances : Z) (fraction : F)
    (key : string) g (labels : list string) :
  File_get_all templates key = Ok labels →
  0 <= instances <= Int.INT_MAX →
  bool_decide (classes = Int.INT_MAX) && bool_decide (instances = Int.INT_MAX)
    && float_ge_1 fraction = false →
  ∃ out g' selected g1,
    Downsample templates classes instances fraction key g = Ok (out, g') ∧
    choose_labels templates classes instances key g
    = Ok (labels, selected, g1) ∧
    QList_size out <= QList_size selected * instances ∧
    (0 <= classes → QList_size out <= classes * instances).
Proof.
  intros Hlabels Hint Hlate.
  destruct (Downsample_spec templates classes instances fraction key g labels
              Hlate Hlabels)
    as (_ & selected & g1 & blocks & out & g' & _ & _ & Hch & _ & _ &
        Hblocks & Hres & Hsub & _).
  assert (Habs : Int.abs instances = instances).
  { unfold Int.abs. rewrite Z.abs_eq by lia. apply wrap_id.
    unfold Int.INT_MIN. lia. }
  rewrite Habs in Hch, Hblocks.
  rewrite bool_decide_eq_false_2 in Hblocks by lia.
  exists out, g', selected, g1. split; [done|]. split; [done|].
  pose proof (blocks_length_bounded _ _ _ _ _ Hblocks (proj1 Hint)) as Hlen.
  apply submseteq_length in Hsub. unfold QList_size in *.
  split; [lia|]. intros Hclasses.
  destruct (choose_labels_inv _ _ _ _ _ _ _ _ Hch) as [counts ->].
  pose proof (select_labels_length (QMap_keys (prune counts classes instances))
                classes g) as Hsel.
  unfold QList_size in Hsel. destruct (decide _) in Hsel; nia.
Qed.

(** The at-least mode with a bound on the classes: when [instances] is
    negative, [classes] is not [INT_MAX] and the fraction is not below 1,
    every selected label has at least [abs(instances)] templates in the
    result. *)
Theorem Downsample_at_least templates (classes instances : Z) (fraction : F)
    (key : string) g (labels : list string) :
  File_get_all templates key = Ok labels →
  instances < 0 → Int.abs instances ≠ Int.INT_MAX →
  classes ≠ Int.INT_MAX →
  float_lt_1 fraction = false →
  ∃ out g' selected g1,
    Downsample templates classes instances fraction key g = Ok (out, g') ∧
    choose_labels templates classes (Int.abs instances) key g
    = Ok (labels, selected, g1) ∧
    ∀ l, l ∈ selected → Int.abs instances <= Z.of_nat (count_label key l out).
Proof.
  intros Hlabels Hneg Habs Hclasses Hfrac.
  destruct (Downsample_spec templates classes instances fraction key g labels)
    as (counts & selected & g1 & blocks & out & g' & _ & Hcount & Hch & Hnd &
        Hin & Hblocks & Hres & _ & Heq); [|done|].
  { by rewrite (bool_decide_eq_false_2 _ Hclasses). }
  exists out, g', selected, g1. split; [done|]. split; [done|].
  intros l Hl. rewrite (Heq Hfrac).
  rewrite bool_decide_eq_true_2 in Hblocks by done.
  destruct (blocks_complete _ _ _ l _ _ Hblocks Hnd Hl) as [-> _].
  destruct (Hin l Hl) as [c Hc]. unfold prune in Hc.
  rewrite decide_True in Hc by done.
  apply map_lookup_filter_Some in Hc as [Hc Hkeep]. cbn in Hkeep.
  rewrite (Hcount Habs l c Hc) in Hkeep. lia.
Qed.

End SamplerFacts.

(** ** DownsampleTrainingTransform *)

Section WrapperFacts.
Context {File Mat F Rng T : Type}.
Context `{!FileOps File, !FloatOps F, !RandomOps Rng, !TransformOps File Mat T}.
Import DownsampleTraining.

(** C10.  When the pointer [transform] is null, [train] returns at once
    and changes nothing, whereas every call of [project] dereferences the
    null pointer. *)
Theorem wrapper_null_transform (w : DownsampleTrainingTransform F T) :
  transform w = None →
  (∀ data (g : Rng), train w data g = Ok (w, g)) ∧
  (∀ src dst : Template File Mat, project w src dst = Abort NullDereference).
Proof.
  intros Hnull. split; intros; unfold train, project; by rewrite Hnull.
Qed.

(** [std::random_shuffle] permutes. *)
Hypothesis shuffle_perm :
  ∀ (A : Type) (l : list A) (g : Rng), (random_shuffle l g).1 ≡ₚ l.

(** With the default values of [classes], [instances] and [fraction],
    [train] hands the whole list, as it is, to a transform that can be
    trained, and does not draw from the generator. *)
Theorem wrapper_train_default (w : DownsampleTrainingTransform F T) (t : T)
    (data : TemplateList File Mat) (g : Rng) :
  transform w = Some t → Transform_trainable t = true →
  classes w = Int.INT_MAX → instances w = Int.INT_MAX →
  float_ge_1 (fraction w) = true →
  train w data g
  = Ok (mkDownsampleTraining (Some (Transform_train t data)) (classes w)
          (instances w) (fraction w) (inputVariable w), g).
Proof.
  intros Ht Htr Hc Hi Hf. unfold train. rewrite Ht, Htr. cbn [negb].
  rewrite Downsample_early; [done|].
  rewrite Hc, Hi, Hf. by rewrite !bool_decide_eq_true_2.
Qed.

(** What [train] does to a transform that is set.  One that cannot be
    trained is left alone, and the list is not even read.  One that can
    is trained once, on the list that [Downsample] returns, which holds
    no template more often than the data; the other properties of the
    object keep their values.  When [Downsample] fails, so does
    [train]. *)
Theorem wrapper_train_outcome (w : DownsampleTrainingTransform F T) (t : T)
    (data : TemplateList File Mat) (g : Rng) :
  transform w = Some t →
  (Transform_trainable t = false → train w data g = Ok (w, g)) ∧
  (Transform_trainable t = true →
     (∀ f, Sampler.Downsample data (classes w) (instances w) (fraction w)
             (inputVariable w) g = Abort f →
           train w data g = Abort f) ∧
     (∀ w' g', train w data g = Ok (w', g') →
        ∃ downsampled,
          Sampler.Downsample data (classes w) (instances w) (fraction w)
            (inputVariable w) g = Ok (downsampled, g') ∧
          downsampled ⊆+ data ∧
          w' = mkDownsampleTraining (Some (Transform_train t downsampled))
                 (classes w) (instances w) (fraction w) (inputVariable w))).
Proof.
  intros Ht. unfold train. rewrite Ht. split; [by intros ->|].
  intros ->. cbn [negb]. split.
  - by intros f ->.
  - intros w' g'.
    destruct (Sampler.Downsample data _ _ _ _ g) as [[downsampled g2]|f] eqn:E;
      [|done].
    cbn [mbind Run_bind]. intros [= <- <-]. exists downsampled.
    split; [done|]. split; [|done].
    by eapply (Downsample_result_submseteq shuffle_perm).
Qed.

End WrapperFacts.

(** ** IndependentTransform *)

Section IndependentFacts.
Context {File Mat T : Type}.
Context `{!TransformOps File Mat T}.
Import Independent.
Implicit Types (e : IndependentTransform T) (ts : list T).
Implicit Types (src dst : Template File Mat) (data : TemplateList File Mat).

Lemma rem_nat (i n : nat) :
  n ≠ 0%nat → Int.rem (Z.of_nat i) (Z.of_nat n) = Ok (Z.of_nat (i `mod` n)).
Proof.
  intros Hn. unfold Int.rem. rewrite decide_False by lia.
  rewrite Z.rem_mod_nonneg by lia. by rewrite Nat2Z.inj_mod.
Qed.

(** The clone that serves index [i] of a roster that is not empty. *)
Lemma roster_lookup ts (i : nat) :
  ts ≠ [] → ∃ t, ts !! (i `mod` length ts)%nat = Some t.
Proof.
  intros Hne. apply lookup_lt_is_Some_2, Nat.mod_upper_bound.
  by destruct ts.
Qed.

Lemma project_loop_step ts (f : File) (i : nat) (m : Mat) rest dst acc t :
  ts !! (i `mod` length ts)%nat = Some t →
  project_loop ts f i (m :: rest) dst acc
  = project_loop ts f (S i) rest
      (mkTemplate (file (Transform_project t (mkTemplate f [m]) dst)) [])
      (acc ++ mats (Transform_project t (mkTemplate f [m]) dst)).
Proof.
  intros Ht. cbn [project_loop]. unfold QList_size.
  rewrite rem_nat by (intros E; rewrite E in Ht; by destruct ts).
  cbn. by rewrite Nat2Z.id, Ht.
Qed.

Lemma project_loop_ok ts (f : File) (i : nat) channels dst acc :
  ts ≠ [] → ∃ out, project_loop ts f i channels dst acc = Ok out.
Proof.
  intros Hne. revert i dst acc.
  induction channels as [|m rest IH]; intros i dst acc; [by eexists|].
  destruct (roster_lookup ts i Hne) as [t Ht].
  rewrite (project_loop_step _ _ _ _ _ _ _ t Ht). apply IH.
Qed.

Lemma project_loop_empty (f : File) (i : nat) (m : Mat) rest dst acc :
  project_loop [] f i (m :: rest) dst acc = Abort DivisionByZero.
Proof. done. Qed.

Lemma project_ok e src dst :
  transforms e ≠ [] → ∃ out, project e src dst = Ok out.
Proof.
  intros Hne. unfold project.
  destruct (project_loop_ok (transforms e) (file src) 0 (mats src)
              (mkTemplate (file src) (mats dst)) [] Hne) as [[d ms] ->].
  by eexists.
Qed.

(** C9, as the code has it.  On an empty roster [project] divides by zero
    as soon as the source has a matrix, but for a source without matrices
    it returns: the loop is not entered and the result is the destination
    with the file of the source.  On a roster that is not empty every
    index [i % size] is computed and in range: [project] returns. *)
Theorem project_roster_guard e src dst :
  (transforms e = [] → mats src ≠ [] →
     project e src dst = Abort DivisionByZero) ∧
  (transforms e = [] → mats src = [] →
     project e src dst = Ok (mkTemplate (file src) (mats dst))) ∧
  (transforms e ≠ [] → ∃ out, project e src dst = Ok out).
Proof.
  split; [|split]; [unfold project..|].
  - intros -> Hm. destruct (mats src) as [|m rest]; [done|].
    by rewrite project_loop_empty.
  - intros _ ->. cbn. by rewrite app_nil_r.
  - apply project_ok.
Qed.

(** The loop of [project] for clones that, from a source and a
    destination that carry the file [f], leave [f] in the destination. *)
Lemma project_loop_spec ts (f : File) (dst_mats : list Mat) channels :
  ts ≠ [] →
  (∀ t m dm, t ∈ ts →
     file (Transform_project t (mkTemplate f [m]) (mkTemplate f dm)) = f) →
  ∀ (i : nat) (dm acc : list Mat),
    dm = (if decide (i = 0%nat) then dst_mats else []) →
    project_loop ts f i channels (mkTemplate f dm) acc
    = Ok (mkTemplate f (match channels with [] => dm | _ => [] end),
          acc ++ concat (imap (λ j, spec_channel ts f dst_mats (i + j)) channels)).
Proof.
  intros Hne Hfile. induction channels as [|m rest IH]; intros i dm acc Hdm.
  - cbn. by rewrite app_nil_r.
  - destruct (roster_lookup ts i Hne) as [t Ht].
    rewrite (project_loop_step _ _ _ _ _ _ _ t Ht).
    rewrite Hfile by (by eapply list_elem_of_lookup_2).
    rewrite (IH (S i) [] _) by (by rewrite decide_False by lia).
    rewrite imap_cons. cbn [concat].
    unfold spec_channel at 2. rewrite Nat.add_0_r, Ht, <- Hdm.
    rewrite <- app_assoc. do 4 f_equal.
    { by destruct rest. }
    f_equal. apply imap_ext. intros j x _. cbn. by rewrite Nat.add_succ_r.
Qed.

Lemma concat_imap_singletons {A B : Type} (f : nat → A → list B) (l : list A) :
  (∀ i x, l !! i = Some x → length (f i x) = 1%nat) →
  length (concat (imap f l)) = length l ∧
  ∀ i x, l !! i = Some x → concat (imap f l) !! i = head (f i x).
Proof.
  revert f. induction l as [|a l IH]; intros f Hone; [done|].
  rewrite imap_cons. cbn [concat].
  pose proof (Hone 0%nat a eq_refl) as H0.
  destruct (f 0%nat a) as [|b [|??]] eqn:E0; try discriminate.
  destruct (IH (f ∘ S)) as [IHlen IHget].
  { intros i x Hi. apply (Hone (S i) x Hi). }
  split; [cbn; by rewrite IHlen|].
  intros [|i] x Hi; cbn in Hi |- *.
  - injection Hi as <-. by rewrite E0.
  - by apply IHget.
Qed.

(** C6, as the code has it.  The roster is not empty and its clones,
    called with a source and a destination that both carry the file of
    [src], leave that file in the destination.  Then [project] returns a
    template with the file of [src]; its matrices are, in the order of
    the source, those that the clone at [i mod size] wrote for the matrix
    at index [i] (those of the destination when the source has no
    matrix).  When every clone writes exactly one matrix, the matrix at
    index [i] of the result is the one that the clone at [i mod size]
    wrote for the matrix at index [i] of the source. *)
Theorem project_by_column e src dst :
  transforms e ≠ [] →
  (∀ t m dm, t ∈ transforms e →
     file (Transform_project t (mkTemplate (file src) [m])
             (mkTemplate (file src) dm)) = file src) →
  let out :=
    mkTemplate (file src)
      (match mats src with
       | [] => mats dst
       | _ => concat (imap (spec_channel (transforms e) (file src) (mats dst))
                           (mats src))
       end) in
  project e src dst = Ok out ∧
  ((∀ t s d, t ∈ transforms e → length (mats (Transform_project t s d)) = 1%nat) →
   (mats src ≠ [] → length (mats out) = length (mats src)) ∧
   ∀ (i : nat) m, mats src !! i = Some m →
     ∃ t, transforms e !! (i `mod` length (transforms e))%nat = Some t ∧
          mats out !! i
          = head (mats (Transform_project t (mkTemplate (file src) [m])
                          (mkTemplate (file src)
                             (if decide (i = 0%nat) then mats dst else []))))).
Proof.
  intros Hne Hfile. cbn zeta. split.
  - unfold project.
    rewrite (project_loop_spec _ _ (mats dst) _ Hne Hfile 0 (mats dst) [])
      by done.
    cbn. destruct (mats src); cbn; [by rewrite app_nil_r | done].
  - intros Hone. cbn [mats].
    destruct (concat_imap_singletons
                (spec_channel (transforms e) (file src) (mats dst)) (mats src))
      as [Hlen Hget].
    { intros i x _. unfold spec_channel.
      destruct (roster_lookup (transforms e) i Hne) as [t Ht]. rewrite Ht.
      apply Hone. by eapply list_elem_of_lookup_2. }
    split.
    + intros Hsrc. by destruct (mats src).
    + intros i m Hi. destruct (roster_lookup (transforms e) i Hne) as [t Ht].
      exists t. split; [done|].
      destruct (mats src) as [|m0 rest] eqn:Es; [done|].
      rewrite (Hget i m Hi). unfold spec_channel. by rewrite Ht.
Qed.

(** *** The length of the roster *)

Lemma add_template_length (t : Template File Mat)
    (templatesList : list (TemplateList File Mat)) :
  length (add_template t templatesList)
  = (length templatesList `max` length (mats t))%nat.
Proof.
  unfold add_template. rewrite length_imap, length_app, length_replicate. lia.
Qed.

Lemma regroup_from_length data (acc : list (TemplateList File Mat)) :
  length (foldl (λ templatesList t, add_template t templatesList) acc data)
  = (length acc `max` max_channels data)%nat.
Proof.
  revert acc. induction data as [|t data IH]; intros acc; cbn.
  - unfold max_channels; cbn. lia.
  - rewrite IH, add_template_length. unfold max_channels; cbn. lia.
Qed.

Lemma regroup_length data : length (regroup data) = max_channels data.
Proof. unfold regroup. by rewrite regroup_from_length. Qed.

Lemma grow_inv e (size : Z) ts' :
  grow e size = Ok ts' →
  (length (transforms e) ≤ length ts')%nat ∧ size <= Z.of_nat (length ts') ∧
  (transforms e = [] → ts' = []) ∧
  (Z.of_nat (length (transforms e)) <= size → Z.of_nat (length ts') = size).
Proof.
  unfold grow, transform, QList_size. destruct (decide (_ < _)) as [Hlt|Hge].
  - destruct (transforms e) as [|p ts0]; [done|]. cbn [head]. intros [= <-].
    cbn [length] in *. rewrite length_app, length_replicate.
    repeat split; [lia..|done|lia].
  - intros [= <-]. repeat split; [lia..|done|lia].
Qed.

Lemma grow_ok e (size : Z) : transforms e ≠ [] → ∃ ts', grow e size = Ok ts'.
Proof.
  intros Hne. unfold grow, transform. destruct (decide _); [|by eexists].
  destruct (transforms e); [done|]. by eexists.
Qed.

Lemma train_each_length ts (templatesList : list (TemplateList File Mat)) :
  length (train_each ts templatesList) = length ts.
Proof.
  revert templatesList. induction ts as [|t ts IH]; intros [|c cs]; cbn; auto.
Qed.

Lemma load_each_length (n : nat) ts (stream : list Z) :
  length (load_each n ts stream).1 = length ts.
Proof.
  revert ts stream. induction n as [|n IH]; intros [|t ts] stream; cbn; auto.
  destruct (Transform_load t stream) as [t' s'].
  specialize (IH ts s'). destruct (load_each n ts s') as [ts'' s'']. cbn in *.
  by rewrite IH.
Qed.

(** What one call does to the roster and to the flag. *)
Lemma call_inv e (c : Call File Mat) e' :
  call e c = Ok e' →
  (length (transforms e) ≤ length (transforms e'))%nat ∧
  trainable e' = trainable e ∧
  (transforms e = [] → transforms e' = []) ∧
  (trainable e = true → ∀ data, c = CallTrain data →
     (max_channels data ≤ length (transforms e'))%nat).
Proof.
  destruct c as [data|stream|src dst]; cbn [call].
  - unfold train. destruct (trainable e) eqn:Etr; cbn [negb].
    + destruct (grow e (QList_size (regroup data))) as [ts|f]
        eqn:Eg; [|done].
      cbn. intros [= <-]. cbn [transforms trainable].
      destruct (grow_inv _ _ _ Eg) as (Hle & Hsize & Hnil & _).
      rewrite train_each_length. repeat split; [done|..].
      * intros H0. rewrite (Hnil H0). by destruct (regroup data).
      * intros _ data' [= <-]. unfold QList_size in Hsize.
        rewrite regroup_length in Hsize. lia.
    + intros [= <-]. repeat split; [lia|done..|congruence].
  - unfold load. destruct (QDataStream.read_int stream) as [size stream1].
    destruct (grow e size) as [ts|f] eqn:Eg; [|done].
    cbn. pose proof (load_each_length (Z.to_nat size) ts stream1) as Hl.
    destruct (load_each (Z.to_nat size) ts stream1) as [ts' stream2].
    cbn in Hl |- *. intros [= <-]. cbn [transforms trainable].
    destruct (grow_inv _ _ _ Eg) as (Hle & _ & Hnil & _).
    repeat split; [lia|..|done].
    intros H0. rewrite (Hnil H0) in Hl. by destruct ts'.
  - destruct (project e src dst); [|done]. cbn. intros [= <-].
    repeat split; [lia|done..].
Qed.

Lemma call_ok e (c : Call File Mat) :
  transforms e ≠ [] → ∃ e', call e c = Ok e'.
Proof.
  intros Hne. destruct c as [data|stream|src dst]; cbn [call].
  - unfold train. destruct (negb (trainable e)); [by eexists|].
    destruct (grow_ok e (QList_size (regroup data)) Hne)
      as [ts ->]. by eexists.
  - unfold load. destruct (QDataStream.read_int stream) as [size stream1].
    destruct (grow_ok e size Hne) as [ts ->]. cbn.
    destruct (load_each _ _ _). by eexists.
  - destruct (project_ok e src dst Hne) as [out ->]. by eexists.
Qed.

Lemma calls_inv e (cs : list (Call File Mat)) e' :
  calls e cs = Ok e' →
  (length (transforms e) ≤ length (transforms e'))%nat ∧
  trainable e' = trainable e ∧
  (transforms e = [] → transforms e' = []) ∧
  (trainable e = true → (max_trained cs ≤ length (transforms e'))%nat).
Proof.
  revert e. induction cs as [|c cs IH]; intros e; cbn [calls].
  - intros [= <-]. cbn. repeat split; [lia|done|lia].
  - destruct (call e c) as [e1|f] eqn:Ec; [|done]. cbn. intros Hcs.
    destruct (call_inv _ _ _ Ec) as (Hle1 & Htr1 & Hnil1 & Hmax1).
    destruct (IH _ Hcs) as (Hle2 & Htr2 & Hnil2 & Hmax2).
    repeat split; [lia | congruence | auto |].
    intros Htr. rewrite Htr1, Htr in Hmax2. specialize (Hmax2 eq_refl).
    destruct c as [data| |]; cbn [max_trained]; [|done..].
    specialize (Hmax1 Htr data eq_refl). lia.
Qed.

(** C7, as the code has it.  Over every sequence of calls of [train],
    [load] and [project] that returns, the roster does not get shorter,
    and on an object that is trainable it is at least as long as the
    longest template handed to [train] in the sequence.  On a roster that
    is not empty every such sequence returns. *)
Theorem roster_never_shrinks e (cs : list (Call File Mat)) :
  (transforms e ≠ [] → ∃ e', calls e cs = Ok e') ∧
  (∀ e', calls e cs = Ok e' →
     (length (transforms e) ≤ length (transforms e'))%nat ∧
     (trainable e = true → (max_trained cs ≤ length (transforms e'))%nat)).
Proof.
  split.
  - revert e. induction cs as [|c cs IH]; intros e Hne; cbn [calls];
      [by eexists|].
    destruct (call_ok e c Hne) as [e1 He1]. rewrite He1. cbn.
    apply IH. destruct (call_inv _ _ _ He1) as (Hle & _).
    intros E. rewrite E in Hle. destruct (transforms e); [done|].
    cbn in Hle. lia.
  - intros e' Hcs. destruct (calls_inv _ _ _ Hcs) as (Hle & _ & _ & Hmax).
    by split.
Qed.

(** *** Storing and loading *)

Lemma read_write_int (n : Z) (rest : list Z) :
  Int.INT_MIN <= n <= Int.INT_MAX →
  QDataStream.read_int (QDataStream.write_int n ++ rest) = (n, rest).
Proof.
  unfold Int.INT_MIN, Int.INT_MAX. intros Hn.
  unfold QDataStream.write_int, QDataStream.read_int. cbn [app].
  f_equal. unfold Int.wrap.
  set (u := n `mod` 2 ^ 32).
  assert (Hu : 0 <= u < 2 ^ 32) by (apply Z.mod_pos_bound; lia).
  assert (Hbytes : ((u / 2 ^ 24 * 256 + (u / 2 ^ 16) `mod` 256) * 256
                    + (u / 2 ^ 8) `mod` 256) * 256 + u `mod` 256 = u).
  { clear -Hu.
    change (2 ^ 24) with 16777216. change (2 ^ 16) with 65536.
    change (2 ^ 8) with 256. change (2 ^ 32) with 4294967296 in Hu.
    Z.div_mod_to_equations. lia. }
  rewrite Hbytes. unfold u.
  change (2 ^ 31) with 2147483648 in *. change (2 ^ 32) with 4294967296 in *.
  destruct (decide (0 <= n)).
  - rewrite (Z.mod_small n) by lia. rewrite Z.mod_small by lia. lia.
  - replace (n `mod` 4294967296) with (n + 4294967296).
    + replace (n + 4294967296 + 2147483648)
        with (n + 2147483648 + 1 * 4294967296) by lia.
      rewrite Z.mod_add by lia. rewrite Z.mod_small by lia. lia.
    + apply Z.mod_unique_pos with (q := -1); lia.
Qed.

(** Objects that were stored one after the other are loaded back, one
    after the other, into as many objects, whatever these held. *)
Lemma load_each_roundtrip ts :
  (∀ (t t0 : T) rest, ∃ t',
     Transform_load t0 (Transform_store t ++ rest) = (t', rest)
     ∧ same_project t' t) →
  ∀ ts0 rest, length ts0 = length ts →
    ∃ ts', load_each (length ts) ts0 (concat (Transform_store <$> ts) ++ rest)
           = (ts', rest)
           ∧ Forall2 same_project ts' ts.
Proof.
  intros Hrt. induction ts as [|t ts IH]; intros [|t0 ts0] rest Hl;
    try discriminate.
  - exists []. by split.
  - cbn [length fmap list_fmap concat load_each]. rewrite <- app_assoc.
    destruct (Hrt t t0 (concat (Transform_store <$> ts) ++ rest))
      as (t' & -> & Hsame).
    destruct (IH ts0 rest) as (ts' & -> & Hall); [by injection Hl|].
    exists (t' :: ts'). split; [done|]. by constructor.
Qed.

Lemma project_loop_same ts ts' (f : File) channels :
  Forall2 same_project ts' ts →
  ∀ (i : nat) dst acc,
    project_loop ts' f i channels dst acc = project_loop ts f i channels dst acc.
Proof.
  intros Hall. pose proof (Forall2_length _ _ _ Hall) as Hlen.
  induction channels as [|m rest IH]; intros i dst acc; [done|].
  cbn [project_loop]. unfold QList_size. rewrite Hlen.
  destruct (Int.rem (Z.of_nat i) (Z.of_nat (length ts))) as [k|]; [|done].
  cbn. destruct (ts !! Z.to_nat k) as [t|] eqn:Et.
  - destruct (Forall2_lookup_r _ _ _ _ _ Hall Et) as (t' & -> & Hsame).
    rewrite Hsame. apply IH.
  - apply lookup_ge_None in Et. rewrite <- Hlen in Et.
    apply lookup_ge_None in Et. by rewrite Et.
Qed.

(** C8.  An object that [init] and then calls of [train], [load] and
    [project] brought about is stored, and the bytes are loaded into an
    object that [init] has just made from the same [transform].
    Provided every transform that is stored is loaded back as one that
    projects alike, the loaded roster has the length of the stored one,
    its clones project like the stored ones position by position, and
    the two objects project alike. *)
Theorem store_load_roundtrip (proto : option T) (trainable0 trainable1 : bool)
    (cs : list (Call File Mat)) e (rest : list Z) :
  (∀ (t t0 : T) rest, ∃ t',
     Transform_load t0 (Transform_store t ++ rest) = (t', rest)
     ∧ same_project t' t) →
  calls (init proto trainable0) cs = Ok e →
  QList_size (transforms e) <= Int.INT_MAX →
  ∃ e', load (init proto trainable1) (store e [] ++ rest) = Ok (e', rest) ∧
        length (transforms e') = length (transforms e) ∧
        Forall2 same_project (transforms e') (transforms e) ∧
        ∀ src dst, project e' src dst = project e src dst.
Proof.
  intros Hrt Hcs Hmax. unfold QList_size in Hmax.
  destruct (calls_inv _ _ _ Hcs) as (Hle & _ & Hnil & _).
  unfold load, store. cbn [app]. rewrite <- app_assoc.
  rewrite read_write_int by (unfold QList_size, Int.INT_MIN; lia).
  unfold QList_size.
  destruct (grow (init proto trainable1)
              (Z.of_nat (length (transforms e)))) as [ts0|f] eqn:Eg.
  - destruct (grow_inv _ _ _ Eg) as (_ & _ & _ & Hsize).
    assert (Hl0 : length ts0 = length (transforms e)).
    { apply Nat2Z.inj, Hsize. destruct proto; cbn in Hle |- *; clear -Hle; lia. }
    cbn. rewrite Nat2Z.id.
    destruct (load_each_roundtrip (transforms e) Hrt ts0 rest Hl0)
      as (ts' & -> & Hall).
    eexists. split; [done|]. cbn [transforms].
    split; [by apply Forall2_length in Hall|]. split; [done|].
    intros src dst. unfold project. cbn [transforms].
    by rewrite (project_loop_same _ _ _ _ Hall).
  - exfalso. unfold grow, transform in Eg.
    destruct (decide _) as [Hlt|]; [|done].
    destruct proto as [p|]; [done|]. unfold QList_size in Hlt.
    cbn in Hlt, Hnil. rewrite (Hnil eq_refl) in Hlt. cbn in Hlt. lia.
Qed.

(** *** Training by column *)

Lemma column_cons (t : Template File Mat) data (i : nat) :
  column (t :: data) i
  = match mats t !! i with
    | Some m => [mkTemplate (file t) [m]]
    | None => []
    end ++ column data i.
Proof. unfold column. cbn. by destruct (mats t !! i). Qed.

Lemma add_template_lookup (t : Template File Mat)
    (templatesList : list (TemplateList File Mat)) (i : nat) :
  add_template t templatesList !! i
  = if decide (i < length templatesList `max` length (mats t))%nat
    then Some (default [] (templatesList !! i) ++ column [t] i)
    else None.
Proof.
  unfold add_template. rewrite list_lookup_imap, column_cons.
  unfold column at 1. cbn [omap list_omap]. rewrite app_nil_r.
  destruct (decide (i < length templatesList)%nat) as [Hi|Hi].
  - rewrite lookup_app_l by done. rewrite decide_True by lia.
    destruct (lookup_lt_is_Some_2 _ _ Hi) as [c ->]. cbn.
    destruct (mats t !! i); [done | by rewrite app_nil_r].
  - rewrite lookup_app_r by lia.
    rewrite (lookup_ge_None_2 templatesList) by lia. cbn [default app].
    destruct (decide (i < length (mats t))%nat) as [Hm|Hm].
    + rewrite decide_True by lia. rewrite lookup_replicate_2 by lia. cbn.
      by destruct (lookup_lt_is_Some_2 _ _ Hm) as [m ->].
    + rewrite decide_False by lia.
      assert (replicate (length (mats t) - length templatesList)%nat
                (@nil (Template File Mat)) !! (i - length templatesList)%nat
              = None) as -> by (apply lookup_replicate_None; lia).
      done.
Qed.

Lemma regroup_from_lookup data (acc : list (TemplateList File Mat)) (i : nat) :
  foldl (λ templatesList t, add_template t templatesList) acc data !! i
  = if decide (i < length acc `max` max_channels data)%nat
    then Some (default [] (acc !! i) ++ column data i)
    else None.
Proof.
  revert acc. induction data as [|t data IH]; intros acc; cbn [foldl].
  - unfold max_channels, column. cbn. rewrite Nat.max_0_r.
    destruct (decide (i < length acc)%nat) as [Hi|Hi].
    + destruct (lookup_lt_is_Some_2 _ _ Hi) as [c ->]. cbn.
      by rewrite app_nil_r.
    + by apply lookup_ge_None_2; lia.
  - rewrite IH, add_template_length, add_template_lookup.
    assert (Hmax : max_channels (t :: data)
                   = (length (mats t) `max` max_channels data)%nat) by done.
    rewrite Hmax.
    destruct (decide (i < (length acc `max` length (mats t))
                          `max` max_channels data)%nat) as [Hi|Hi];
      destruct (decide (i < length acc `max` (length (mats t)
                              `max` max_channels data))%nat) as [Hk|Hk];
      try lia; [|done].
    f_equal.
    destruct (decide (i < length acc `max` length (mats t))%nat) as [Hj|Hj].
    + cbn [default]. rewrite (column_cons t data), (column_cons t []).
      change (column [] i) with (@nil (Template File Mat)). unfold id.
      by rewrite app_nil_r, <- app_assoc.
    + rewrite (column_cons t data).
      rewrite (lookup_ge_None_2 acc), (lookup_ge_None_2 (mats t)) by lia.
      done.
Qed.

Lemma regroup_lookup data (i : nat) :
  regroup data !! i
  = if decide (i < max_channels data)%nat then Some (column data i) else None.
Proof. unfold regroup. by rewrite regroup_from_lookup. Qed.

Lemma column_single data (i : nat) :
  Forall (λ t, length (mats t) = 1%nat) (column data i).
Proof.
  induction data as [|t data IH]; [constructor|].
  rewrite column_cons. destruct (mats t !! i); [constructor|]; done.
Qed.

(** Lines 142 to 150.  There are as many columns as the longest template
    of [data] has matrices.  Column [i] holds, in the order of [data] and
    each with the file of its template, the matrices at index [i] of the
    templates that have one, every one in a template of its own: a
    template with fewer matrices gives nothing to the columns past its
    end. *)
Theorem regroup_columns data :
  length (regroup data) = max_channels data ∧
  (∀ i, (i < max_channels data)%nat → regroup data !! i = Some (column data i)) ∧
  (∀ i, Forall (λ t, length (mats t) = 1%nat) (column data i)) ∧
  (∀ i t, t ∈ column data i ↔
     ∃ t0 m, t0 ∈ data ∧ mats t0 !! i = Some m ∧ t = mkTemplate (file t0) [m]).
Proof.
  split; [apply regroup_length|]. split.
  - intros i Hi. by rewrite regroup_lookup, decide_True.
  - split; [apply column_single|].
    intros i t. unfold column. rewrite list_elem_of_omap. split.
    + intros (t0 & Ht0 & Hm). destruct (mats t0 !! i) as [m|] eqn:E; [|done].
      injection Hm as <-. by exists t0, m.
    + intros (t0 & m & Ht0 & Hm & ->). exists t0. by rewrite Hm.
Qed.

Lemma train_each_lookup ts (templatesList : list (TemplateList File Mat))
    (i : nat) :
  train_each ts templatesList !! i
  = (λ t, match templatesList !! i with
          | Some c => Transform_train t c
          | None => t
          end) <$> ts !! i.
Proof.
  revert templatesList i.
  induction ts as [|t ts IH]; intros [|c cs] [|i]; cbn; try done.
  by destruct (ts !! i).
Qed.

(** The roster after [train] on a trainable object whose [transform] is
    the object [p]. *)
Lemma train_lookup e data (p : T) :
  trainable e = true → transform e = Some p →
  ∃ e', train e data = Ok e' ∧ trainable e' = true ∧
    length (transforms e')
    = (length (transforms e) `max` max_channels data)%nat ∧
    ∀ i, transforms e' !! i
         = if decide (i < max_channels data)%nat
           then Some (Transform_train
                        (default (Transform_clone p) (transforms e !! i))
                        (column data i))
           else transforms e !! i.
Proof.
  intros Htr Hp. unfold train, grow. rewrite Htr, Hp. cbn [negb].
  unfold QList_size. rewrite regroup_length.
  set (n := max_channels data).
  set (ts := if decide (Z.of_nat (length (transforms e)) < Z.of_nat n)
             then transforms e
                  ++ replicate (Z.to_nat (Z.of_nat n) - length (transforms e))
                               (Transform_clone p)
             else transforms e).
  assert (Hts : ∀ i, ts !! i
                      = if decide (i < length (transforms e) `max` n)%nat
                        then Some (default (Transform_clone p)
                                     (transforms e !! i))
                        else None).
  { intros i. unfold ts. destruct (decide (_ < _)) as [Hlt|Hge].
    - rewrite Nat2Z.id. destruct (decide (i < length (transforms e))%nat) as [Hi|Hi].
      + rewrite lookup_app_l, decide_True by lia.
        by destruct (lookup_lt_is_Some_2 _ _ Hi) as [t ->].
      + rewrite lookup_app_r, (lookup_ge_None_2 (transforms e)) by lia.
        cbn [default]. destruct (decide (i < _ `max` n)%nat).
        * by rewrite lookup_replicate_2 by lia.
        * by apply lookup_replicate_None; lia.
    - destruct (decide (i < _ `max` n)%nat) as [Hi|Hi].
      + destruct (lookup_lt_is_Some_2 (transforms e) i) as [t ->]; [lia|done].
      + by apply lookup_ge_None_2; lia. }
  assert (Hl : length ts = (length (transforms e) `max` n)%nat).
  { unfold ts. destruct (decide _); [|lia].
    rewrite length_app, length_replicate. lia. }
  exists (mkIndependent (train_each ts (regroup data)) true).
  split.
  { unfold ts. by destruct (decide _). }
  split; [done|]. cbn [transforms]. split; [by rewrite train_each_length|].
  intros i. rewrite train_each_lookup, regroup_lookup, Hts. fold n.
  destruct (decide (i < n)%nat) as [Hi|Hi].
  - by rewrite decide_True by lia.
  - destruct (decide (i < _ `max` n)%nat) as [Hj|Hj]; cbn.
    + destruct (lookup_lt_is_Some_2 (transforms e) i) as [t ->]; [lia|done].
    + symmetry. apply lookup_ge_None_2. lia.
Qed.

(** [train] on a trainable object whose [transform] is set returns.  The
    roster grows to the number of columns when it is shorter.  The
    transform at index [i] below the number of columns is trained on
    column [i]: the one that was there, or else a clone of [transform] as
    it is before the call.  The transforms past the columns are left as
    they are. *)
Theorem train_columns e data (p : T) :
  trainable e = true → transform e = Some p →
  ∃ e', train e data = Ok e' ∧ trainable e' = true ∧
    length (transforms e')
    = (length (transforms e) `max` max_channels data)%nat ∧
    ∀ i, transforms e' !! i
         = if decide (i < max_channels data)%nat
           then Some (Transform_train
                        (default (Transform_clone p) (transforms e !! i))
                        (column data i))
           else transforms e !! i.
Proof. apply train_lookup. Qed.

(** [train] on a trainable object without a [transform]: a list whose
    templates have no matrix changes nothing, any other list makes the
    call dereference the null pointer. *)
Theorem train_null_transform e data :
  transforms e = [] → trainable e = true →
  train e data = if decide (max_channels data = 0%nat) then Ok e
                 else Abort NullDereference.
Proof.
  destruct e as [ts tr]. cbn. intros -> ->. unfold train, grow, transform.
  cbn [negb trainable transforms head]. unfold QList_size.
  rewrite regroup_length. destruct (decide (max_channels data = _)) as [H0|H0].
  - rewrite decide_False by (cbn; lia). cbn.
    by destruct (regroup data).
  - by rewrite decide_True by (cbn; lia).
Qed.

(** After [train] on lists whose templates have as many matrices as the
    roster is long at most, the clone that [project] takes for the matrix
    at index [i] is the one that was trained on column [i]. *)
Theorem train_project_alignment e data (p : T) e' (i : nat) :
  trainable e = true → transform e = Some p →
  (length (transforms e) ≤ max_channels data)%nat →
  train e data = Ok e' →
  (i < max_channels data)%nat →
  transforms e' !! (i `mod` length (transforms e'))%nat
  = Some (Transform_train (default (Transform_clone p) (transforms e !! i))
            (column data i)).
Proof.
  intros Htr Hp Hle Hres Hi.
  destruct (train_lookup e data p Htr Hp) as (e0 & He0 & _ & Hlen & Hget).
  rewrite Hres in He0. injection He0 as <-.
  rewrite Hlen, Nat.max_r by done. rewrite Nat.mod_small by done.
  by rewrite Hget, decide_True.
Qed.

(** *** Loading and cloning *)

Lemma load_each_tail (n : nat) ts (stream : list Z) (i : nat) :
  (n ≤ i)%nat → (load_each n ts stream).1 !! i = ts !! i.
Proof.
  revert ts stream i. induction n as [|n IH]; intros [|t ts] stream i Hi;
    cbn; try done.
  destruct (Transform_load t stream) as [t' s'].
  specialize (IH ts s'). destruct (load_each n ts s') as [ts'' s''].
  destruct i as [|i]; [lia|]. cbn in *. apply IH. lia.
Qed.

(** The count that [load] reads, at its edges.  A count of 0 or less is
    taken as it comes: nothing is cloned, nothing is loaded, the object
    is as before.  A count above 0 on an object without a [transform]
    makes the call dereference the null pointer. *)
Theorem load_count_edges e (stream rest : list Z) (size : Z) :
  QDataStream.read_int stream = (size, rest) →
  (size <= 0 → load e stream = Ok (e, rest)) ∧
  (0 < size → transforms e = [] → load e stream = Abort NullDereference).
Proof.
  intros Hread. unfold load, grow, transform. rewrite Hread.
  unfold QList_size. split.
  - intros Hsize. rewrite decide_False by lia. cbn [mbind Run_bind].
    replace (Z.to_nat size) with 0%nat by lia. by destruct e as [[|??] ?].
  - intros Hsize ->. by rewrite decide_True by (cbn; lia).
Qed.

(** [load] keeps the flag [trainable], makes the roster as long as the
    count when it is shorter, and leaves the transforms past the count as
    they are. *)
Theorem load_keeps_tail e (stream rest : list Z) (size : Z) e' rest' :
  QDataStream.read_int stream = (size, rest) →
  load e stream = Ok (e', rest') →
  trainable e' = trainable e ∧
  length (transforms e')
  = (length (transforms e) `max` Z.to_nat size)%nat ∧
  ∀ i, (Z.to_nat size ≤ i)%nat → transforms e' !! i = transforms e !! i.
Proof.
  intros Hread. unfold load. rewrite Hread.
  destruct (grow e size) as [ts|f] eqn:Eg; [|done]. cbn [mbind Run_bind].
  pose proof (load_each_length (Z.to_nat size) ts rest) as Hlen.
  pose proof (load_each_tail (Z.to_nat size) ts rest) as Htail.
  destruct (load_each (Z.to_nat size) ts rest) as [ts' s2]. cbn [fst] in *.
  intros [= <- <-]. cbn [transforms trainable]. split; [done|].
  assert (Hts : length ts = (length (transforms e) `max` Z.to_nat size)%nat
                ∧ ∀ i, (Z.to_nat size ≤ i)%nat → ts !! i = transforms e !! i).
  { unfold grow, transform, QList_size in Eg.
    destruct (decide _) as [Hlt|Hge].
    - destruct (head (transforms e)) as [p|]; [|done]. injection Eg as <-.
      rewrite length_app, length_replicate. split; [lia|].
      intros i Hi. rewrite lookup_app_r by lia.
      rewrite (lookup_ge_None_2 (transforms e)) by lia.
      apply lookup_replicate_None. lia.
    - injection Eg as <-. split; [lia | done]. }
  destruct Hts as [Hl Hi]. split; [lia|].
  intros i Hle. by rewrite Htail, Hi.
Qed.

(** [clone()] copies the first transform of the roster only: whatever
    the length of the roster, the new object has a roster of one
    transform, the clone of [transform], and takes its flag from it.
    Without a [transform] the call dereferences the null pointer. *)
Theorem clone_first_only e (trainable0 : bool) :
  match transforms e with
  | [] => clone e trainable0 = Abort NullDereference
  | p :: _ =>
      clone e trainable0
      = Ok (mkIndependent [Transform_clone p]
              (Transform_trainable (Transform_clone p)))
  end.
Proof. unfold clone, transform. by destruct (transforms e). Qed.

End IndependentFacts.

(** ** SingletonTransform *)

Section SingletonFacts.
Context {File Mat : Type}.
Import Singleton.
Implicit Types (r : Registry File Mat) (d : string).
Implicit Types (o : @SingletonTransform) (data : TemplateList File Mat).

Lemma count_at_insert r d c tr (td : gmap string (TemplateList File Mat)) m t :
  count_at (mkRegistry tr (<[d := c]> (trainingReferenceCounts r)) td m t) d = c.
Proof. unfold count_at; simpl. by rewrite lookup_insert_eq. Qed.

(** One [init] on a description that is already in the table. *)
Lemma init_known d r :
  is_Some (transforms r !! d) →
  init d r =
    (mkSingleton d (transform_at r d),
     mkRegistry (transforms r)
                (<[d := Int.add (count_at r d) 1]> (trainingReferenceCounts r))
                (trainingData r) (made r) (trained r)).
Proof. intros H. unfold init. by rewrite decide_True. Qed.

(** One [init] on a new description: the object is made, the count
    starts at 0 and is incremented at once. *)
Lemma init_new d r :
  transforms r !! d = None →
  init d r =
    (mkSingleton d (S (length (made r))),
     mkRegistry (<[d := S (length (made r))]> (transforms r))
                (<[d := Int.add 0 1]> (trainingReferenceCounts r))
                (trainingData r) (made r ++ [d]) (trained r)).
Proof.
  intros H. unfold init.
  rewrite decide_False by (rewrite H; apply is_Some_None).
  cbn [make]. unfold transform_at, count_at; cbn.
  rewrite !lookup_insert_eq; cbn. by rewrite insert_insert_eq.
Qed.

Lemma init_registers d r : is_Some (transforms (init d r).2 !! d).
Proof.
  destruct (transforms r !! d) as [p|] eqn:E.
  - rewrite init_known by (rewrite E; eauto). cbn. rewrite E; eauto.
  - rewrite init_new by done. cbn. rewrite lookup_insert_eq; eauto.
Qed.

Lemma init_count d r :
  count_at r d = 0 → count_at (init d r).2 d = 1.
Proof.
  intros Hc. destruct (transforms r !! d) as [p|] eqn:E.
  - rewrite init_known by (rewrite E; eauto). cbn.
    rewrite count_at_insert, Hc. done.
  - rewrite init_new by done. cbn. by rewrite count_at_insert.
Qed.

Lemma init_keeps d r :
  data_at (init d r).2 d = data_at r d ∧ trained (init d r).2 = trained r.
Proof.
  destruct (transforms r !! d) as [p|] eqn:E.
  - rewrite init_known by (rewrite E; eauto). done.
  - rewrite init_new by done. done.
Qed.

Lemma init_owner d r :
  (init d r).1 = mkSingleton d (transform_at (init d r).2 d).
Proof.
  destruct (transforms r !! d) as [p|] eqn:E.
  - rewrite init_known by (rewrite E; eauto). done.
  - rewrite init_new by done. cbn. unfold transform_at; cbn.
    by rewrite lookup_insert_eq.
Qed.

(** Further owners of a known description: each one adds 1 to the count
    and nothing else changes. *)
Lemma init_all_known d n r :
  is_Some (transforms r !! d) →
  0 <= count_at r d → count_at r d + Z.of_nat n <= Int.INT_MAX →
  let res := init_all d n r in
  res.1 = replicate n (mkSingleton d (transform_at r d)) ∧
  count_at res.2 d = count_at r d + Z.of_nat n ∧
  data_at res.2 d = data_at r d ∧
  trained res.2 = trained r ∧
  transform_at res.2 d = transform_at r d.
Proof.
  revert r. induction n as [|n IH]; intros r Hk H0 Hmax; cbn zeta.
  - cbn. repeat split; lia.
  - cbn [init_all]. rewrite init_known by done.
    set (r1 := mkRegistry _ _ _ _ _).
    assert (Hc1 : count_at r1 d = count_at r d + 1).
    { unfold r1. rewrite count_at_insert. unfold Int.add.
      apply wrap_id. unfold Int.INT_MIN, Int.INT_MAX in *. lia. }
    specialize (IH r1). destruct (init_all d n r1) as [os r2] eqn:E.
    cbn in IH |- *.
    destruct IH as (Hos & Hc & Hd & Ht & Hp); [done | lia | lia |].
    repeat split; [by rewrite Hos | lia | done | done | done].
Qed.

(** A [train] that leaves other owners outstanding only buffers. *)
Lemma train_buffers o data r :
  1 < count_at r (description o) <= Int.INT_MAX →
  let r' := train o data r in
  count_at r' (description o) = count_at r (description o) - 1 ∧
  data_at r' (description o) = data_at r (description o) ++ data ∧
  trained r' = trained r.
Proof.
  intros Hc. unfold train. cbn zeta.
  assert (Hw : Int.sub (count_at r (description o)) 1
               = count_at r (description o) - 1).
  { apply wrap_id. unfold Int.INT_MIN, Int.INT_MAX in *. lia. }
  rewrite Hw. destruct (decide (_ > 0)) as [Hd|Hd]; [|lia].
  unfold count_at, data_at; cbn. by rewrite !lookup_insert_eq.
Qed.

(** A [train] at a count of 1 or less (and above [INT_MIN]) trains the
    shared transform on the whole buffer and empties the buffer. *)
Lemma train_flushes o data r :
  Int.INT_MIN < count_at r (description o) <= 1 →
  let r' := train o data r in
  count_at r' (description o) = count_at r (description o) - 1 ∧
  data_at r' (description o) = [] ∧
  trained r' = trained r ++ [(transform o, data_at r (description o) ++ data)].
Proof.
  intros Hc. unfold train. cbn zeta.
  assert (Hw : Int.sub (count_at r (description o)) 1
               = count_at r (description o) - 1).
  { apply wrap_id. unfold Int.INT_MIN, Int.INT_MAX in *. lia. }
  rewrite Hw. destruct (decide (_ > 0)) as [Hd|Hd]; [lia|].
  unfold count_at, data_at; cbn. by rewrite !lookup_insert_eq.
Qed.

(** [k] owners train while more than [k] are outstanding. *)
Lemma train_all_buffers d p (ds : list (TemplateList File Mat)) r :
  Z.of_nat (length ds) < count_at r d <= Int.INT_MAX →
  let r' := train_all (replicate (length ds) (mkSingleton d p)) ds r in
  count_at r' d = count_at r d - Z.of_nat (length ds) ∧
  data_at r' d = data_at r d ++ concat ds ∧
  trained r' = trained r.
Proof.
  revert r. induction ds as [|x ds IH]; intros r Hc; cbn zeta.
  - cbn. rewrite app_nil_r. repeat split; lia.
  - cbn [length replicate train_all concat].
    destruct (train_buffers (mkSingleton d p) x r) as (Hc1 & Hd1 & Ht1).
    { cbn [description]. cbn [length] in Hc. lia. }
    cbn [description] in *.
    destruct (IH (train (mkSingleton d p) x r)) as (Hc2 & Hd2 & Ht2).
    { cbn [length] in Hc. lia. }
    rewrite Hc2, Hd2, Ht2, Hc1, Hd1, Ht1, <- app_assoc.
    cbn [length]. repeat split; lia.
Qed.

Lemma train_all_app (os1 os2 : list SingletonTransform)
    (ds1 ds2 : list (TemplateList File Mat)) r :
  length os1 = length ds1 →
  train_all (os1 ++ os2) (ds1 ++ ds2) r
  = train_all os2 ds2 (train_all os1 ds1 r).
Proof.
  revert ds1 r. induction os1 as [|o os1 IH]; intros [|x ds1] r Hl;
    try discriminate; [done|].
  cbn. apply IH. by injection Hl.
Qed.

(** The owners and the registry after [n+1] calls of [init] on a
    description whose count is 0. *)
Lemma init_all_fresh d n r :
  count_at r d = 0 → Z.of_nat (S n) <= Int.INT_MAX →
  let res := init_all d (S n) r in
  res.1 = replicate (S n) (mkSingleton d (transform_at res.2 d)) ∧
  count_at res.2 d = Z.of_nat (S n) ∧
  data_at res.2 d = data_at r d ∧
  trained res.2 = trained r.
Proof.
  intros Hc Hmax. cbn zeta. cbn [init_all].
  pose proof (init_registers d r) as Hk.
  pose proof (init_count d r Hc) as Hc1.
  destruct (init_keeps d r) as [Hd1 Ht1].
  pose proof (init_owner d r) as Ho.
  destruct (init d r) as [o ra]. cbn [fst snd] in *.
  destruct (init_all_known d n ra) as (Hos & Hc2 & Hd2 & Ht2 & Hp2);
    [done | lia | lia |].
  destruct (init_all d n ra) as [os r2]. cbn [fst snd] in *.
  rewrite Hp2, Hos, Ho, Hc2, Hd2, Ht2, Hc1, Hd1, Ht1.
  repeat split; lia.
Qed.

(** C1.  [N >= 1] owners call [init] with the description [d], whose
    count is 0 and whose buffer is empty beforehand ([N] is at most
    [INT_MAX], the counter being an [int]); every owner holds the same
    shared transform [p].  Then each owner calls [train] once, the
    [i]-th with [ds !! i].  None of the first [k < N] calls trains the
    shared transform; the [N] calls together train it exactly once, on
    the concatenation of the [N] contributions; the buffer of [d] is
    empty afterwards. *)
Theorem singleton_trains_once d (ds : list (TemplateList File Mat)) r :
  count_at r d = 0 → data_at r d = [] →
  (1 <= length ds)%nat → Z.of_nat (length ds) <= Int.INT_MAX →
  let os := (init_all d (length ds) r).1 in
  let r1 := (init_all d (length ds) r).2 in
  let p := transform_at r1 d in
  os = replicate (length ds) (mkSingleton d p) ∧
  (∀ k, (k < length ds)%nat →
     trained (train_all (take k os) (take k ds) r1) = trained r) ∧
  trained (train_all os ds r1) = trained r ++ [(p, concat ds)] ∧
  data_at (train_all os ds r1) d = [].
Proof.
  intros Hc Hd Hn Hmax. cbn zeta.
  destruct (length ds) as [|n] eqn:En; [lia|].
  destruct (init_all_fresh d n r Hc Hmax) as (Hos & Hc1 & Hd1 & Ht1).
  set (r1 := (init_all d (S n) r).2) in *.
  set (p := transform_at r1 d) in *.
  rewrite Hos. split; [done|]. split.
  - intros k Hk.
    assert (Hlk : length (take k ds) = k) by (rewrite length_take; lia).
    rewrite take_replicate, Nat.min_l by lia.
    rewrite <- Hlk at 1.
    destruct (train_all_buffers d p (take k ds) r1) as (_ & _ & Ht).
    { rewrite Hlk. lia. }
    by rewrite Ht.
  - destruct (decide (ds = [])) as [->|Hne]; [done|].
    destruct (exists_last Hne) as (ds' & x & ->).
    rewrite length_app in En; cbn in En.
    assert (Hl : length ds' = n) by lia.
    replace (S n) with (n + 1)%nat by lia.
    rewrite replicate_add, train_all_app by (by rewrite length_replicate).
    cbn [replicate train_all]. rewrite <- Hl.
    destruct (train_all_buffers d p ds' r1) as (Hc2 & Hd2 & Ht2); [lia|].
    set (r2 := train_all _ ds' r1) in *.
    destruct (train_flushes (mkSingleton d p) x r2) as (Hc3 & Hd3 & Ht3).
    { cbn [description]. unfold Int.INT_MIN. lia. }
    cbn [description transform] in *.
    rewrite Ht3, Hd3, Hd2, Ht2, Hd1, Hd, Ht1, concat_app.
    cbn. by rewrite app_nil_r.
Qed.

(** C3, as the code has it.  A [train] issued when the count is already
    0 or less (one call more than there were calls of [init]) is not
    turned down: the count goes down to a negative value, the shared
    transform is trained on the buffer followed by the contribution,
    and the buffer is emptied. *)
Theorem singleton_train_underflow o data r :
  Int.INT_MIN < count_at r (description o) <= 0 →
  let r' := train o data r in
  count_at r' (description o) = count_at r (description o) - 1 ∧
  count_at r' (description o) < 0 ∧
  trained r' = trained r ++ [(transform o, data_at r (description o) ++ data)] ∧
  data_at r' (description o) = [].
Proof.
  intros Hc. destruct (train_flushes o data r) as (H1 & H2 & H3); [lia|].
  cbn zeta. rewrite H1, H2, H3. repeat split; lia.
Qed.

(** *** Rounds *)

Lemma init_all_known_transforms d (n : nat) r :
  is_Some (transforms r !! d) →
  transforms (init_all d n r).2 = transforms r.
Proof.
  revert r. induction n as [|n IH]; intros r Hk; [done|].
  cbn [init_all]. rewrite init_known by done.
  set (r1 := mkRegistry _ _ _ _ _).
  specialize (IH r1 Hk). destruct (init_all d n r1) as [os r2]. done.
Qed.

Lemma train_transforms o data r : transforms (train o data r) = transforms r.
Proof. unfold train. by destruct (decide _). Qed.

Lemma train_all_transforms (os : list SingletonTransform)
    (ds : list (TemplateList File Mat)) r :
  transforms (train_all os ds r) = transforms r.
Proof.
  revert ds r. induction os as [|o os IH]; intros [|x ds] r; cbn; try done.
  by rewrite IH, train_transforms.
Qed.

(** The registry after one round on a description whose count is 0 and
    whose buffer is empty. *)
Lemma round_spec d (ds : list (TemplateList File Mat)) r :
  count_at r d = 0 → data_at r d = [] →
  (1 <= length ds)%nat → Z.of_nat (length ds) <= Int.INT_MAX →
  let r1 := (init_all d (length ds) r).2 in
  count_at (round d ds r) d = 0 ∧
  data_at (round d ds r) d = [] ∧
  trained (round d ds r) = trained r ++ [(transform_at r1 d, concat ds)] ∧
  transforms (round d ds r) = transforms r1 ∧
  is_Some (transforms r1 !! d) ∧
  (is_Some (transforms r !! d) → transforms r1 = transforms r).
Proof.
  intros Hc Hd Hn Hmax. cbn zeta. unfold round.
  destruct (length ds) as [|n] eqn:En; [lia|].
  destruct (init_all_fresh d n r Hc Hmax) as (Hos & Hc1 & Hd1 & Ht1).
  assert (Hreg : is_Some (transforms (init_all d (S n) r).2 !! d)).
  { cbn [init_all]. pose proof (init_registers d r) as Hk.
    destruct (init d r) as [o ra]. cbn [snd] in Hk.
    pose proof (init_all_known_transforms d n ra Hk) as Htr.
    destruct (init_all d n ra) as [os r2]. cbn [snd] in *. by rewrite Htr. }
  set (r1 := (init_all d (S n) r).2) in *.
  set (p := transform_at r1 d) in *.
  rewrite Hos, train_all_transforms.
  destruct (exists_last (l := ds)) as (ds' & x & ->); [by intros ->|].
  rewrite length_app in En; cbn in En.
  assert (Hl : length ds' = n) by lia.
  replace (S n) with (n + 1)%nat by lia.
  rewrite replicate_add, train_all_app by (by rewrite length_replicate).
  cbn [replicate train_all]. rewrite <- Hl.
  destruct (train_all_buffers d p ds' r1) as (Hc2 & Hd2 & Ht2); [lia|].
  set (r2 := train_all _ ds' r1) in *.
  destruct (train_flushes (mkSingleton d p) x r2) as (Hc3 & Hd3 & Ht3).
  { cbn [description]. unfold Int.INT_MIN. lia. }
  cbn [description transform] in *.
  rewrite Hc3, Hd3, Ht3, Hc2, Hd2, Ht2, Hd1, Hd, Ht1, concat_app.
  cbn [concat app]. rewrite app_nil_r.
  repeat split; [lia | done |].
  intros Hk. unfold r1. replace (n + 1)%nat with (S n) by lia.
  by apply init_all_known_transforms.
Qed.

(** A round leaves the registry ready for the next one.  After a round
    of [N1] owners and a round of [N2] owners on the same description
    (from a count of 0 and an empty buffer, neither number above
    [INT_MAX]) the shared transform has been trained exactly twice, first
    on the contributions of the first round and then on those of the
    second alone; the count is 0 again and the buffer is empty. *)
Theorem singleton_rounds d (ds1 ds2 : list (TemplateList File Mat)) r :
  count_at r d = 0 → data_at r d = [] →
  (1 <= length ds1)%nat → Z.of_nat (length ds1) <= Int.INT_MAX →
  (1 <= length ds2)%nat → Z.of_nat (length ds2) <= Int.INT_MAX →
  let p := transform_at (init_all d (length ds1) r).2 d in
  let r' := round d ds2 (round d ds1 r) in
  trained r' = trained r ++ [(p, concat ds1); (p, concat ds2)] ∧
  count_at r' d = 0 ∧ data_at r' d = [].
Proof.
  intros Hc Hd Hn1 Hm1 Hn2 Hm2. cbn zeta.
  destruct (round_spec d ds1 r Hc Hd Hn1 Hm1)
    as (Hc1 & Hd1 & Ht1 & Htr1 & Hreg1 & _).
  destruct (round_spec d ds2 (round d ds1 r) Hc1 Hd1 Hn2 Hm2)
    as (Hc2 & Hd2 & Ht2 & _ & _ & Hsame).
  rewrite Hc2, Hd2, Ht2, Ht1, <- app_assoc. repeat split.
  do 3 f_equal. unfold transform_at.
  rewrite Hsame by (by rewrite Htr1). by rewrite Htr1.
Qed.

(** *** Descriptions and their objects *)

(** [init] and [train] for one description leave the count, the buffer
    and the transform of every other description as they are. *)
Theorem singleton_frame d d' o data r :
  d ≠ d' → description o = d →
  (count_at (init d r).2 d' = count_at r d' ∧
   data_at (init d r).2 d' = data_at r d' ∧
   transforms (init d r).2 !! d' = transforms r !! d') ∧
  (count_at (train o data r) d' = count_at r d' ∧
   data_at (train o data r) d' = data_at r d' ∧
   transforms (train o data r) !! d' = transforms r !! d').
Proof.
  intros Hne <-. split.
  - destruct (transforms r !! description o) as [p|] eqn:E.
    + rewrite init_known by (rewrite E; eauto).
      unfold count_at, data_at; cbn. by rewrite lookup_insert_ne.
    + rewrite init_new by done.
      unfold count_at, data_at; cbn. by rewrite !lookup_insert_ne.
  - unfold train. destruct (decide _); unfold count_at, data_at; cbn;
      by rewrite !lookup_insert_ne.
Qed.

Lemma wrap_range (x : Z) : Int.INT_MIN <= Int.wrap x <= Int.INT_MAX.
Proof.
  unfold Int.wrap, Int.INT_MIN, Int.INT_MAX.
  pose proof (Z.mod_pos_bound (x + 2 ^ 31) (2 ^ 32)). lia.
Qed.

Lemma wrap_add (x y : Z) : Int.wrap (Int.wrap x + y) = Int.wrap (x + y).
Proof.
  unfold Int.wrap. f_equal.
  replace ((x + 2 ^ 31) `mod` 2 ^ 32 - 2 ^ 31 + y + 2 ^ 31)
    with ((x + 2 ^ 31) `mod` 2 ^ 32 + y) by lia.
  rewrite Zplus_mod_idemp_l. f_equal. lia.
Qed.

Lemma consistent_empty : consistent ([], @empty File Mat).
Proof.
  repeat split; cbn.
  - by rewrite lookup_empty.
  - intros (k & _ & Hk). by rewrite lookup_nil in Hk.
  - intros o Ho. by apply elem_of_nil in Ho.
  - unfold Int.INT_MIN. unfold count_at. cbn. rewrite lookup_empty. cbn. lia.
  - unfold Int.INT_MAX. unfold count_at. cbn. rewrite lookup_empty. cbn. lia.
Qed.

Lemma count_at_range_insert r d c d' tr
    (td : gmap string (TemplateList File Mat)) m t :
  (∀ d, Int.INT_MIN <= count_at r d <= Int.INT_MAX) →
  Int.INT_MIN <= c <= Int.INT_MAX →
  Int.INT_MIN
  <= count_at (mkRegistry tr (<[d := c]> (trainingReferenceCounts r)) td m t) d'
  <= Int.INT_MAX.
Proof.
  intros Hall Hc. unfold count_at; cbn.
  destruct (decide (d = d')) as [->|Hne].
  - by rewrite lookup_insert_eq.
  - rewrite lookup_insert_ne by done. apply Hall.
Qed.

Lemma consistent_step st (op : Op File Mat) :
  consistent st → consistent (step st op).
Proof.
  destruct st as [os r]. intros (Hobj & Hown & Hcnt & Hrange).
  unfold ptr in *.
  cbn [fst snd] in *. destruct op as [d|k data]; cbn [step fst snd].
  - destruct (transforms r !! d) as [p|] eqn:E.
    + rewrite init_known by (rewrite E; eauto). cbn [fst snd].
      split; [|split; [|split]]; cbn.
      * done.
      * intros o [Ho|Ho%list_elem_of_singleton]%elem_of_app; [by apply Hown|].
        subst o. cbn [description transform].
        assert (transform_at r d = p) as ->; [|done].
        unfold transform_at, ptr in *. by rewrite E.
      * intros d' Hd'. rewrite lookup_insert_ne by (unfold ptr in *; congruence). by apply Hcnt.
      * intros d'. apply count_at_range_insert; [done | apply wrap_range].
    + rewrite init_new by done. cbn [fst snd].
      split; [|split; [|split]]; cbn.
      * intros d' p. destruct (decide (d = d')) as [<-|Hne].
        -- rewrite lookup_insert_eq. split.
           ++ intros [= <-]. exists (length (made r)). split; [done|].
              by rewrite list_lookup_middle.
           ++ intros (k & -> & Hk).
              apply lookup_app_Some in Hk as [Hk|[Hlen Hk]].
              ** assert (transforms r !! d = Some (S k)) as Hreg
                   by (apply Hobj; eauto). (unfold ptr in *; congruence).
              ** apply list_lookup_singleton_Some in Hk as [Hk _].
                 do 2 f_equal. lia.
        -- rewrite lookup_insert_ne by done. rewrite Hobj.
           split; intros (k & -> & Hk); exists k; (split; [done|]).
           ++ by apply lookup_app_l_Some.
           ++ apply lookup_app_Some in Hk as [Hk|[_ Hk]]; [done|].
              apply list_lookup_singleton_Some in Hk as [_ Hk]. (unfold ptr in *; congruence).
      * intros o [Ho|Ho%list_elem_of_singleton]%elem_of_app.
        -- pose proof (Hown o Ho) as Hreg.
           rewrite lookup_insert_ne by (unfold ptr in *; congruence). done.
        -- subst o. cbn. by rewrite lookup_insert_eq.
      * intros d' Hd'. destruct (decide (d = d')) as [<-|Hne].
        -- by rewrite lookup_insert_eq in Hd'.
        -- rewrite lookup_insert_ne in Hd' by done.
           rewrite lookup_insert_ne by done. by apply Hcnt.
      * intros d'. apply count_at_range_insert; [done | apply wrap_range].
  - destruct (os !! k) as [o|] eqn:Ek; cbn [fst snd]; [|done].
    pose proof (Hown o (list_elem_of_lookup_2 _ _ _ Ek)) as Hreg.
    split; [|split; [|split]].
    + cbn [fst snd]. rewrite train_transforms.
      unfold train. by destruct (decide _).
    + cbn [fst snd]. by setoid_rewrite train_transforms.
    + cbn [fst snd]. rewrite train_transforms. intros d' Hd'.
      unfold train. destruct (decide _); cbn;
        (rewrite lookup_insert_ne by (unfold ptr in *; congruence)); by apply Hcnt.
    + cbn [fst snd]. intros d'. unfold train.
      destruct (decide _); apply count_at_range_insert;
        first [done | apply wrap_range].
Qed.

Lemma consistent_run (ops : list (Op File Mat)) st :
  consistent st → consistent (run ops st).
Proof.
  revert st. induction ops as [|op ops IH]; intros st Hst; [done|].
  apply IH. by apply consistent_step.
Qed.

(** Whatever calls of [init] and [train] were made since the program
    started: [make] has been called once for every description that is
    registered and never twice for the same one; every object holds the
    transform that is registered under its description, which is not the
    null pointer; two objects hold the same transform exactly when they
    have the same description. *)
Theorem singleton_objects (ops : list (Op File Mat)) :
  let st := run ops ([], empty) in
  NoDup (made st.2) ∧
  (∀ d, is_Some (transforms st.2 !! d) ↔ d ∈ made st.2) ∧
  (∀ o, o ∈ st.1 →
     transforms st.2 !! description o = Some (transform o)
     ∧ transform o ≠ 0%nat) ∧
  (∀ o1 o2, o1 ∈ st.1 → o2 ∈ st.1 →
     transform o1 = transform o2 ↔ description o1 = description o2).
Proof.
  cbn zeta. destruct (consistent_run ops _ consistent_empty)
    as (Hobj & Hown & _ & _).
  set (st := run ops ([], empty)) in *.
  split; [|split; [|split]].
  - apply NoDup_alt. intros i j d Hi Hj.
    assert (transforms st.2 !! d = Some (S i)) as H1 by (apply Hobj; eauto).
    assert (transforms st.2 !! d = Some (S j)) as H2 by (apply Hobj; eauto).
    congruence.
  - intros d. split.
    + intros [p Hp]. apply Hobj in Hp as (k & _ & Hk).
      by eapply list_elem_of_lookup_2.
    + intros (k & Hk)%list_elem_of_lookup_1. exists (S k). apply Hobj. eauto.
  - intros o Ho. split; [by apply Hown|].
    destruct (proj1 (Hobj _ _) (Hown o Ho)) as (k & -> & _). done.
  - intros o1 o2 Ho1 Ho2. pose proof (Hown o1 Ho1) as H1.
    pose proof (Hown o2 Ho2) as H2. split.
    + intros Heq. rewrite Heq in H1.
      apply Hobj in H1 as (k1 & Hk1 & Hd1). apply Hobj in H2 as (k2 & Hk2 & Hd2).
      assert (k1 = k2) as -> by lia. congruence.
    + intros Heq. rewrite Heq in H1. congruence.
Qed.

Lemma train_count o data r d :
  count_at (train o data r) d
  = if decide (description o = d) then Int.sub (count_at r d) 1
    else count_at r d.
Proof.
  unfold train.
  destruct (decide (_ > 0)); destruct (decide (description o = d)) as [<-|];
    unfold count_at; cbn;
    rewrite ?lookup_insert_eq, ?lookup_insert_ne by done; done.
Qed.

Lemma balance_run d (ops : list (Op File Mat)) st :
  consistent st →
  count_at (run ops st).2 d
  = Int.wrap (count_at st.2 d + balance d (description <$> st.1) ops).
Proof.
  revert st. induction ops as [|op ops IH]; intros st Hst.
  - cbn. rewrite Z.add_0_r. symmetry. apply wrap_id.
    destruct Hst as (_ & _ & _ & Hrange). apply Hrange.
  - cbn [run foldl]. fold (run ops (step st op)).
    rewrite (IH _ (consistent_step _ op Hst)).
    destruct st as [os r]. destruct Hst as (Hobj & Hown & Hcnt & Hrange).
    cbn [fst snd] in *. destruct op as [d'|k data]; cbn [step balance fst snd].
    + assert (Hcount : count_at (init d' r).2 d
                       = Int.wrap (count_at r d
                                   + if decide (d' = d) then 1 else 0)).
      { destruct (transforms r !! d') as [p|] eqn:E.
        - rewrite init_known by (rewrite E; eauto). cbn [snd].
          destruct (decide (d' = d)) as [->|Hne].
          + by rewrite count_at_insert.
          + unfold count_at at 1; cbn. rewrite lookup_insert_ne by done.
            rewrite Z.add_0_r. symmetry. apply wrap_id, Hrange.
        - rewrite init_new by done. cbn [snd].
          destruct (decide (d' = d)) as [->|Hne].
          + rewrite count_at_insert. unfold count_at.
            by rewrite (Hcnt d E).
          + unfold count_at at 1; cbn. rewrite lookup_insert_ne by done.
            rewrite Z.add_0_r. symmetry. apply wrap_id, Hrange. }
      pose proof (init_owner d' r) as Ho.
      destruct (init d' r) as [o r1]. cbn [fst snd] in *.
      rewrite Hcount, wrap_add, fmap_app. subst o. cbn [fmap list_fmap description].
      f_equal. lia.
    + rewrite list_lookup_fmap.
      destruct (os !! k) as [o|] eqn:Ek; cbn [fst snd fmap option_fmap option_map].
      * rewrite train_count.
        destruct (decide (description o = d)) as [<-|Hne].
        -- rewrite decide_True by done. unfold Int.sub. rewrite wrap_add.
           f_equal. lia.
        -- by rewrite decide_False by congruence.
      * by rewrite decide_False by done.
Qed.

(** Whatever calls of [init] and [train] were made since the program
    started, the count of a description is the number of calls of [init]
    for it less the number of calls of [train] by its objects, reduced to
    an [int]. *)
Theorem singleton_count_balance d (ops : list (Op File Mat)) :
  count_at (run ops ([], empty)).2 d = Int.wrap (balance d [] ops).
Proof. by rewrite (balance_run d ops _ consistent_empty). Qed.

End SingletonFacts.

(** ** Evaluations on concrete data *)

(** C1 at two owners of the description X in the empty registry. *)
Lemma singleton_trains_once_witness :
  let ds := [[Examples.s1]; [Examples.s2]] in
  let os := (Singleton.init_all "X" 2 (@Singleton.empty Examples.KV Z)).1 in
  let r1 := (Singleton.init_all "X" 2 (@Singleton.empty Examples.KV Z)).2 in
  Singleton.trained (Singleton.train_all os ds r1)
  = [(1%nat, [Examples.s1; Examples.s2])].
Proof.
  cbn zeta.
  pose proof (@singleton_trains_once Examples.KV Z "X"
                [[Examples.s1]; [Examples.s2]] Singleton.empty) as H.
  destruct H as (_ & _ & H & _);
    [reflexivity | reflexivity | cbn; lia | cbn; unfold Int.INT_MAX; lia |].
  exact H.
Defined.

(** C3 as the specification has it, refuted: one owner of X trains once
    (the count is 0 again), then once more.  The second call takes the
    count to -1 and trains the shared transform a second time. *)
Lemma singleton_extra_train_counterexample :
  Singleton.count_at Examples.after_train "X" = 0 ∧
  Singleton.count_at Examples.after_extra_train "X" = -1 ∧
  Singleton.trained Examples.after_train = [(1%nat, [Examples.s1])] ∧
  Singleton.trained Examples.after_extra_train
  = [(1%nat, [Examples.s1]); (1%nat, [Examples.s2])].
Proof. vm_compute. done. Qed.

Lemma singleton_train_underflow_witness :
  Singleton.count_at Examples.after_extra_train "X" < 0.
Proof.
  destruct (@singleton_train_underflow Examples.KV Z Examples.owner_X
              [Examples.s2] Examples.after_train) as (_ & H & _).
  - vm_compute. split; [reflexivity | discriminate].
  - exact H.
Defined.

Lemma Downsample_identity_witness :
  Sampler.Downsample [Examples.s1; Examples.s2] Int.INT_MAX Int.INT_MAX 1%Q
                     "Label" 0%nat
  = Ok ([Examples.s1; Examples.s2], 0%nat).
Proof. apply (Downsample_identity (F := Q)). reflexivity. Defined.

Lemma wrapper_null_transform_witness :
  DownsampleTraining.train Examples.null_wrapper [Examples.s1] 0%nat
  = Ok (Examples.null_wrapper, 0%nat) ∧
  DownsampleTraining.project Examples.null_wrapper Examples.s1 Examples.bare
  = Abort NullDereference.
Proof.
  destruct (wrapper_null_transform (File := Examples.KV) (Mat := Z) (Rng := nat)
              Examples.null_wrapper eq_refl) as [Htrain Hproject].
  split; [apply Htrain | apply Hproject].
Defined.

(** C6 as the specification has it, refuted: the one clone of the roster
    assigns a template with a default-constructed file to the destination,
    and the template that [project] returns carries that file: the label
    of the source is lost. *)
Lemma project_metadata_counterexample :
  Independent.project Examples.one_blank Examples.s1 Examples.bare
  = Ok (Examples.tpl [] [1]) ∧
  file Examples.s1 = [("Label", "a")] ∧
  file (Examples.tpl [] [1]) ≠ file Examples.s1.
Proof. repeat split. discriminate. Qed.

Lemma project_by_column_witness :
  Independent.project Examples.two_signs Examples.wide Examples.bare
  = Ok (Examples.tpl [("Label", "a")] [10; -20; 30]).
Proof.
  destruct (project_by_column Examples.two_signs Examples.wide Examples.bare)
    as [H _]; [discriminate | reflexivity | exact H].
Defined.

(** C7 as the specification has it, refuted: the transform cannot be
    trained, [train] returns at once, and the roster of length 1 stays
    shorter than the template of three matrices it was handed. *)
Lemma roster_untrainable_counterexample :
  Independent.calls Examples.one_fixed [Independent.CallTrain [Examples.wide]]
  = Ok Examples.one_fixed ∧
  length (Independent.transforms Examples.one_fixed) = 1%nat ∧
  Independent.max_trained
    [Independent.CallTrain [Examples.wide]] = 3%nat.
Proof. repeat split. Qed.

Lemma roster_never_shrinks_witness :
  (Independent.max_trained
     [Independent.CallTrain [Examples.wide]]
   ≤ length (Independent.transforms Examples.three_signs))%nat.
Proof.
  destruct (roster_never_shrinks (Independent.init (Some Examples.Keep) false)
              [Independent.CallTrain [Examples.wide]]) as [_ H].
  destruct (H Examples.three_signs eq_refl) as [_ Hmax].
  exact (Hmax eq_refl).
Defined.

Lemma Sign_roundtrip (t t0 : Examples.Sign) (rest : list Z) :
  ∃ t', Transform_load t0 (Transform_store t ++ rest) = (t', rest)
        ∧ Independent.same_project t' t.
Proof. exists t. by destruct t. Qed.

Lemma store_load_roundtrip_witness :
  ∃ e', Independent.load (Independent.init (Some Examples.Keep) true)
          (Independent.store Examples.three_signs [] ++ [])
        = Ok (e', []) ∧
        length (Independent.transforms e')
        = length (Independent.transforms Examples.three_signs) ∧
        Forall2 Independent.same_project (Independent.transforms e')
                (Independent.transforms Examples.three_signs) ∧
        ∀ src dst, Independent.project e' src dst
                   = Independent.project Examples.three_signs src dst.
Proof.
  apply (store_load_roundtrip (Some Examples.Keep) false true
           [Independent.CallTrain [Examples.wide]]).
  - apply Sign_roundtrip.
  - reflexivity.
  - vm_compute. discriminate.
Defined.

(** C9 as the specification has it, refuted: on an empty roster, for a
    source without matrices, [project] returns a template and no error. *)
Lemma project_empty_roster_counterexample :
  Independent.transforms Examples.no_sign = [] ∧
  Independent.project Examples.no_sign Examples.bare Examples.bare
  = Ok Examples.bare.
Proof. split; reflexivity. Qed.

Lemma project_roster_guard_witness :
  Independent.project Examples.no_sign Examples.wide Examples.bare
  = Abort DivisionByZero ∧
  ∃ out, Independent.project Examples.two_signs Examples.wide Examples.bare
         = Ok out.
Proof.
  split.
  - destruct (project_roster_guard Examples.no_sign Examples.wide Examples.bare)
      as (H & _). apply H; [reflexivity | discriminate].
  - destruct (project_roster_guard Examples.two_signs Examples.wide Examples.bare)
      as (_ & _ & H). apply H. discriminate.
Defined.

(** The generator of the examples permutes. *)
Lemma rotate_perm (A : Type) (l : list A) (g : nat) :
  (random_shuffle l g).1 ≡ₚ l.
Proof.
  cbn. unfold rotate. rewrite Permutation_app_comm. by rewrite take_drop.
Qed.

(** C2 as the specification has it, refuted: [classes] is [INT_MAX] and
    [instances] is 2.  The label b has one eligible template, fewer than
    2, and that template is in the result. *)
Lemma Downsample_keeps_small_label_counterexample :
  Sampler.Downsample [Examples.s1; Examples.s2; Examples.s3] Int.INT_MAX 2
                     1%Q "Label" 0%nat
  = Ok ([Examples.s1; Examples.s3; Examples.s2], 2%nat) ∧
  Sampler.count_eligible "Label" "b" [Examples.s1; Examples.s2; Examples.s3]
  = 1%nat ∧
  Sampler.labelled "Label" "b" Examples.s2.
Proof. repeat split. Qed.

Lemma Downsample_discards_witness :
  ∃ out g',
    Sampler.Downsample [Examples.s1; Examples.s2; Examples.s3] 5 2 1%Q
                       "Label" 0%nat = Ok (out, g') ∧
    ∀ t, t ∈ out → ¬ Sampler.labelled "Label" "b" t.
Proof.
  destruct (Downsample_discards rotate_perm
              [Examples.s1; Examples.s2; Examples.s3] 5 2 1%Q "Label" 0%nat
              ["a"; "b"; "a"]%string)
    as (out & g' & Hres & Hnone);
    [reflexivity | discriminate | discriminate |].
  exists out, g'. split; [exact Hres|].
  apply Hnone. vm_compute. reflexivity.
Defined.

(** C5 as the specification has it, refuted: [instances] is -1 and the
    fraction is one half.  The selected label a has two eligible
    templates; one of them is left after the truncation of line 60. *)
Lemma Downsample_at_least_fraction_counterexample :
  Sampler.Downsample [Examples.s1; Examples.s3] Int.INT_MAX (-1) (1 # 2)%Q
                     "Label" 0%nat
  = Ok ([Examples.s3], 2%nat) ∧
  Sampler.choose_labels [Examples.s1; Examples.s3] Int.INT_MAX (Int.abs (-1))
                        "Label" 0%nat
  = Ok (["a"; "a"]%string, ["a"]%string, 0%nat) ∧
  Sampler.count_eligible "Label" "a" [Examples.s1; Examples.s3] = 2%nat ∧
  Sampler.count_label "Label" "a" [Examples.s3] = 1%nat.
Proof. repeat split. Qed.

Lemma Downsample_per_label_witness :
  ∃ out g',
    Sampler.Downsample [Examples.s1; Examples.s3] Int.INT_MAX (-1) 1%Q
                       "Label" 0%nat = Ok (out, g') ∧
    Sampler.count_label "Label" "a" out = 2%nat.
Proof.
  destruct (Downsample_per_label rotate_perm [Examples.s1; Examples.s3]
              Int.INT_MAX (-1) 1%Q "Label" 0%nat ["a"; "a"]%string)
    as (out & g' & Hres & _ & Hall);
    [reflexivity | vm_compute; split; discriminate | vm_compute; discriminate |].
  exists out, g'. split; [exact Hres|].
  destruct Hall as (selected & g1 & Hch & Hsel); [reflexivity | reflexivity |].
  vm_compute in Hch. injection Hch as <- <-.
  destruct (Hsel "a"%string) as [Hcount _]; [by left|]. exact Hcount.
Defined.

(** ** Further evaluations on concrete data *)

Lemma Downsample_returns_iff_labelled_witness :
  (∃ out g', Sampler.Downsample [Examples.s1; Examples.s2] 5 2 1%Q "Label"
               0%nat = Ok (out, g'))
  ↔ Forall (λ t, ∃ l, Sampler.labelled "Label" l t) [Examples.s1; Examples.s2].
Proof.
  apply (Downsample_returns_iff_labelled rotate_perm). reflexivity.
Defined.

Lemma Downsample_only_eligible_witness :
  ∃ labels selected g1,
    Sampler.choose_labels [Examples.s1; Examples.s2; Examples.s3] 5
                          (Int.abs 2) "Label" 0%nat
    = Ok (labels, selected, g1) ∧
    ∀ t, t ∈ [Examples.s1; Examples.s3] →
      t ∈ [Examples.s1; Examples.s2; Examples.s3] ∧ Sampler.FTE t = false ∧
      ∃ l, l ∈ selected ∧ Sampler.labelled "Label" l t.
Proof.
  apply (Downsample_only_eligible rotate_perm
           [Examples.s1; Examples.s2; Examples.s3] 5 2 1%Q "Label" 0%nat
           [Examples.s1; Examples.s3] 1%nat); reflexivity.
Defined.

Lemma Downsample_submseteq_witness :
  [Examples.s1; Examples.s3] ⊆+ [Examples.s1; Examples.s2; Examples.s3].
Proof.
  apply (Downsample_submseteq rotate_perm
           [Examples.s1; Examples.s2; Examples.s3] 5 2 1%Q "Label" 0%nat
           [Examples.s1; Examples.s3] 1%nat).
  reflexivity.
Defined.


Lemma apply_fraction_size_witness :
  QList_size (Sampler.apply_fraction [Examples.s1; Examples.s3] (1 # 2)%Q
                                     0%nat).1 = 1.
Proof.
  destruct (apply_fraction_size rotate_perm [Examples.s1; Examples.s3]
              (1 # 2)%Q 0%nat) as [H _]; [reflexivity | exact H].
Defined.

Lemma Downsample_size_bound_witness :
  ∃ out g' selected g1,
    Sampler.Downsample [Examples.s1; Examples.s2; Examples.s3] 5 2 1%Q
                       "Label" 0%nat = Ok (out, g') ∧
    Sampler.choose_labels [Examples.s1; Examples.s2; Examples.s3] 5 2
                          "Label" 0%nat = Ok (["a"; "b"; "a"]%string, selected, g1) ∧
    QList_size out <= QList_size selected * 2 ∧
    (0 <= 5 → QList_size out <= 5 * 2).
Proof.
  apply (Downsample_size_bound rotate_perm);
    [reflexivity | unfold Int.INT_MAX; lia | reflexivity].
Defined.

Lemma Downsample_at_least_witness :
  ∃ out g' selected g1,
    Sampler.Downsample [Examples.s1; Examples.s2; Examples.s3] 5 (-2) 1%Q
                       "Label" 0%nat = Ok (out, g') ∧
    Sampler.choose_labels [Examples.s1; Examples.s2; Examples.s3] 5
                          (Int.abs (-2)) "Label" 0%nat
    = Ok (["a"; "b"; "a"]%string, selected, g1) ∧
    ∀ l, l ∈ selected →
      Int.abs (-2) <= Z.of_nat (Sampler.count_label "Label" l out).
Proof.
  apply (Downsample_at_least rotate_perm);
    [reflexivity | lia | discriminate | discriminate | reflexivity].
Defined.

Lemma wrapper_train_default_witness :
  DownsampleTraining.train Examples.default_wrapper
    [Examples.s1; Examples.s2] 0%nat
  = Ok (DownsampleTraining.mkDownsampleTraining (Some Examples.Negate)
          Int.INT_MAX Int.INT_MAX 1%Q "Label", 0%nat).
Proof.
  exact (wrapper_train_default Examples.default_wrapper Examples.Keep
           [Examples.s1; Examples.s2] 0%nat
           eq_refl eq_refl eq_refl eq_refl eq_refl).
Defined.

Lemma wrapper_train_outcome_witness :
  ∃ downsampled,
    Sampler.Downsample [Examples.s1; Examples.s2; Examples.s3] 5 2 1%Q
                       "Label" 0%nat = Ok (downsampled, 1%nat) ∧
    downsampled ⊆+ [Examples.s1; Examples.s2; Examples.s3] ∧
    DownsampleTraining.mkDownsampleTraining (Some Examples.Negate) 5 2 1%Q
                                            "Label"
    = DownsampleTraining.mkDownsampleTraining
        (Some (Transform_train Examples.Keep downsampled)) 5 2 1%Q "Label".
Proof.
  destruct (wrapper_train_outcome rotate_perm Examples.picky_wrapper
              Examples.Keep [Examples.s1; Examples.s2; Examples.s3] 0%nat
              eq_refl) as [_ H].
  destruct (H eq_refl) as [_ H'].
  apply (H' (DownsampleTraining.mkDownsampleTraining (Some Examples.Negate)
               5 2 1%Q "Label") 1%nat).
  reflexivity.
Defined.

Lemma train_columns_witness :
  ∃ e', Independent.train (Independent.init (Some Examples.Keep) false)
          [Examples.wide] = Ok e' ∧
        Independent.trainable e' = true ∧
        length (Independent.transforms e') = 3%nat ∧
        ∀ i, Independent.transforms e' !! i
             = if decide (i < 3)%nat
               then Some (Transform_train
                            (default (Transform_clone Examples.Keep)
                               ([Examples.Keep] !! i))
                            (Independent.column [Examples.wide] i))
               else [Examples.Keep] !! i.
Proof.
  apply (train_columns (Independent.init (Some Examples.Keep) false)
           [Examples.wide] Examples.Keep); reflexivity.
Defined.

Lemma train_null_transform_witness :
  Independent.train Examples.no_sign [Examples.wide] = Abort NullDereference
  ∧ Independent.train Examples.no_sign [Examples.bare] = Ok Examples.no_sign.
Proof.
  split.
  - apply (train_null_transform Examples.no_sign [Examples.wide]); reflexivity.
  - apply (train_null_transform Examples.no_sign [Examples.bare]); reflexivity.
Defined.

Lemma train_project_alignment_witness :
  Independent.transforms Examples.three_signs !! (2 `mod` 3)%nat
  = Some (Transform_train
            (default (Transform_clone Examples.Keep) ([Examples.Keep] !! 2%nat))
            (Independent.column [Examples.wide] 2)).
Proof.
  apply (train_project_alignment (Independent.init (Some Examples.Keep) false)
           [Examples.wide] Examples.Keep Examples.three_signs 2%nat);
    [reflexivity | reflexivity | cbn; lia | reflexivity | cbn; lia].
Defined.

Lemma load_count_edges_witness :
  Independent.load Examples.two_signs [0; 0; 0; 0; 9]
  = Ok (Examples.two_signs, [9]) ∧
  Independent.load Examples.no_sign [0; 0; 0; 2; 1; 1]
  = Abort NullDereference.
Proof.
  split.
  - destruct (load_count_edges Examples.two_signs [0; 0; 0; 0; 9] [9] 0)
      as [H _]; [vm_compute; reflexivity|]. apply H. lia.
  - destruct (load_count_edges Examples.no_sign [0; 0; 0; 2; 1; 1] [1; 1] 2)
      as [_ H]; [vm_compute; reflexivity|]. apply H; [lia | reflexivity].
Defined.

Lemma load_keeps_tail_witness :
  Independent.transforms (Independent.mkIndependent
                            [Examples.Negate; Examples.Negate] true) !! 1%nat
  = Independent.transforms Examples.two_signs !! 1%nat.
Proof.
  destruct (load_keeps_tail Examples.two_signs [0; 0; 0; 1; 1; 7] [1; 7] 1
              (Independent.mkIndependent [Examples.Negate; Examples.Negate] true)
              [7]) as (_ & _ & H);
    [vm_compute; reflexivity | vm_compute; reflexivity |].
  apply H. cbn. lia.
Defined.

Lemma singleton_rounds_witness :
  Singleton.trained
    (Singleton.round "X" [[Examples.s3]]
       (Singleton.round "X" [[Examples.s1]; [Examples.s2]] Singleton.empty))
  = [(1%nat, [Examples.s1; Examples.s2]); (1%nat, [Examples.s3])].
Proof.
  destruct (@singleton_rounds Examples.KV Z "X"
              [[Examples.s1]; [Examples.s2]] [[Examples.s3]] Singleton.empty)
    as (H & _);
    [reflexivity | reflexivity | cbn; lia | cbn; unfold Int.INT_MAX; lia
    | cbn; lia | cbn; unfold Int.INT_MAX; lia |].
  exact H.
Defined.

Lemma singleton_frame_witness :
  Singleton.count_at (Singleton.train Examples.owner_X [Examples.s1]
                        Examples.after_init) "Y"
  = Singleton.count_at Examples.after_init "Y".
Proof.
  destruct (@singleton_frame Examples.KV Z "X" "Y" Examples.owner_X
              [Examples.s1] Examples.after_init) as [_ (H & _)];
    [discriminate | reflexivity | exact H].
Defined.
